(** * safelib: scoped, fallback-aware symbol resolution

    A shallow embedding of [src/safelib/__init__.py] and the properties of
    its resolution-state machine.

    Python objects that the code mutates in place (the two [_Sentinel]
    objects hanging off [_State], the snapshots taken by [Import.enter]) live
    in an explicit store, so that aliasing between the class attributes
    [_State.main]/[_State.fallback], the module global [state] and the
    throw-away [_State()] built by the module-level [__getattr__] is
    visible.  The dynamic loader ([importlib.import_module] and [getattr] on
    a loaded module) is the external collaborator; it is a parameter
    ([Host]) and is assumed to answer the same question the same way. *)

From stdpp Require Import base option gmap strings list relations.

Local Open Scope string_scope.

(** ** Exceptions *)

Inductive ExnClass :=
  | ImportError
  | ModuleNotFoundError
  | AttributeError
  | ValueError
  | TypeError.

(** [issubclass c d] for the builtin classes above: [ModuleNotFoundError]
    derives from [ImportError]; the others are unrelated. *)
Definition issubclass (c d : ExnClass) : bool :=
  match c, d with
  | ImportError, ImportError => true
  | ModuleNotFoundError, ModuleNotFoundError => true
  | ModuleNotFoundError, ImportError => true
  | AttributeError, AttributeError => true
  | ValueError, ValueError => true
  | TypeError, TypeError => true
  | _, _ => false
  end.

Record Exn := Exc { exn_class : ExnClass; exn_msg : string }.

(** [except (c1, ..., cn)] matches an exception. *)
Definition caught_by (cs : list ExnClass) (e : Exn) : bool :=
  existsb (issubclass (exn_class e)) cs.

(** Result of a Python call: a returned value or a raised exception. *)
Inductive Res (A : Type) :=
  | Ret (a : A)
  | Raise (e : Exn).
Arguments Ret {A} a.
Arguments Raise {A} e.

Definition Res_map {A B} (f : A -> B) (r : Res A) : Res B :=
  match r with
  | Ret a => Ret (f a)
  | Raise e => Raise e
  end.

(** ** The host's dynamic-loading facility *)

Class Host := {
  (** objects owned by the host: loaded modules and their attributes *)
  PyObj : Type;
  (** [importlib.import_module(name)] on a string *)
  import_module : string -> Res PyObj;
  (** two-argument [getattr(module, name)] *)
  getattr_module : PyObj -> string -> Res PyObj
}.

(** Three-argument [getattr(obj, name, default)]: only [AttributeError] is
    turned into the default. *)
Definition getattr_default {host : Host} {A} (inj : PyObj -> A) (m : PyObj)
    (name : string) (dflt : A) : Res A :=
  match getattr_module m name with
  | Ret v => Ret (inj v)
  | Raise e => if issubclass (exn_class e) AttributeError then Ret dflt else Raise e
  end.

(** ** Data model *)

Definition loc := nat.

(** What the [value] slot of a [_Sentinel] can hold: [None], a namespace
    name, or the class [_Future]. *)
Inductive SlotValue :=
  | VNone
  | VStr (s : string)
  | VFuture.

(** [bool(v)]: [None] and the empty string are falsy, a class is truthy. *)
Definition truthy_slot (v : SlotValue) : bool :=
  match v with
  | VNone => false
  | VStr s => negb (String.eqb s EmptyString)
  | VFuture => true
  end.

(** [name == v] for a string [name]. *)
Definition str_eq_slot (name : string) (v : SlotValue) : bool :=
  match v with
  | VStr s => String.eqb name s
  | _ => false
  end.

(** [f"{v}"] *)
Definition format_slot (v : SlotValue) : string :=
  match v with
  | VNone => "None"
  | VStr s => s
  | VFuture => "<class 'safelib._Future'>"
  end.

(** class [_Sentinel] *)
Record Sentinel := mkSentinel {
  value : SlotValue;
  empty : bool;
  future : bool
}.

(** [_Sentinel()]: a new object shows the class-level defaults. *)
Definition Sentinel_new : Sentinel := mkSentinel VNone true false.

#[global] Instance Sentinel_inhabited : Inhabited Sentinel := populate Sentinel_new.

(** The instance dictionary of a [_State] object.  An attribute missing
    here is read from the class. *)
Record State := mkState {
  inst_main : option loc;
  inst_fallback : option loc;
  inst_raise_exc : option bool
}.

(** [_State()] *)
Definition State_new : State := mkState None None None.

Inductive Event :=
  | EvImport (name : string)   (* a call that reached the loader *)
  | EvPrint (line : string).   (* a line written by [print] *)

(** The interpreter state the library can see. *)
Record World := mkWorld {
  heap : gmap loc Sentinel;     (* the [_Sentinel] objects *)
  next : loc;                   (* next unused address *)
  cls_main : loc;               (* class attribute [_State.main] *)
  cls_fallback : loc;           (* class attribute [_State.fallback] *)
  cls_raise_exc : bool;         (* class attribute [_State._raise_exc] *)
  state : State;                (* module global [state] *)
  events : list Event           (* loader calls and output, oldest first *)
}.

(** The world right after the module body has run: the two class-level
    sentinels exist, [state = _State()] has an empty instance dictionary. *)
Definition initial_world : World :=
  mkWorld (<[1 := Sentinel_new]> (<[0 := Sentinel_new]> ∅)) 2 0 1 false State_new [].

(** *** Store primitives *)

Definition deref (l : loc) (w : World) : Sentinel := heap w !!! l.

Definition store (l : loc) (s : Sentinel) (w : World) : World :=
  mkWorld (<[l := s]> (heap w)) (next w) (cls_main w) (cls_fallback w)
          (cls_raise_exc w) (state w) (events w).

Definition alloc (s : Sentinel) (w : World) : loc * World :=
  (next w,
   mkWorld (<[next w := s]> (heap w)) (S (next w)) (cls_main w) (cls_fallback w)
           (cls_raise_exc w) (state w) (events w)).

Definition set_state (st : State) (w : World) : World :=
  mkWorld (heap w) (next w) (cls_main w) (cls_fallback w) (cls_raise_exc w)
          st (events w).

Definition log (ev : Event) (w : World) : World :=
  mkWorld (heap w) (next w) (cls_main w) (cls_fallback w) (cls_raise_exc w)
          (state w) (events w ++ [ev]).

(** Attribute assignment on the sentinel at [l]. *)
Definition set_value (l : loc) (v : SlotValue) (w : World) : World :=
  store l (mkSentinel v (empty (deref l w)) (future (deref l w))) w.
Definition set_empty (l : loc) (b : bool) (w : World) : World :=
  store l (mkSentinel (value (deref l w)) b (future (deref l w))) w.
Definition set_future (l : loc) (b : bool) (w : World) : World :=
  store l (mkSentinel (value (deref l w)) (empty (deref l w)) b) w.

(** ** class [_Sentinel] *)

(** [self.copy()]: a new object, then three attribute assignments. *)
Definition Sentinel_copy (self : loc) (w : World) : loc * World :=
  let '(s, w1) := alloc Sentinel_new w in
  let w2 := set_value s (value (deref self w1)) w1 in
  let w3 := set_empty s (empty (deref self w2)) w2 in
  let w4 := set_future s (future (deref self w3)) w3 in
  (s, w4).

(** [self.reset()] *)
Definition Sentinel_reset (self : loc) (w : World) : World :=
  let w1 := set_value self VNone w in
  let w2 := set_empty self true w1 in
  set_future self false w2.

(** ** class [_State] *)

(** [self.main], [self.fallback], [self._raise_exc]: instance dictionary
    first, class attribute otherwise. *)
Definition State_main (self : State) (w : World) : loc :=
  default (cls_main w) (inst_main self).
Definition State_fallback (self : State) (w : World) : loc :=
  default (cls_fallback w) (inst_fallback self).
Definition State_raise_exc (self : State) (w : World) : bool :=
  default (cls_raise_exc w) (inst_raise_exc self).

(** [self.reset()] *)
Definition State_reset (self : State) (w : World) : World :=
  let w1 := Sentinel_reset (State_main self w) w in
  Sentinel_reset (State_fallback self w1) w1.

(** [self.catch()] assigns the instance attribute [_raise_exc]. *)
Definition State_catch (self : State) : State :=
  mkState (inst_main self) (inst_fallback self) (Some false).

(** What a property getter hands back. *)
Inductive PyVal :=
  | PyNone
  | PyBool (b : bool).

Definition truthy (v : PyVal) : bool :=
  match v with
  | PyNone => false
  | PyBool b => b
  end.

(** The [raises] property: its body evaluates [self._raise_exc] as an
    expression statement and falls off the end, so the getter returns
    [None]. *)
Definition State_raises (self : State) (w : World) : PyVal :=
  let _ := State_raise_exc self w in
  PyNone.

(** ** The resolver: module-level [__getattr__] *)

(** What a lookup can hand back ([SafeEntity]): an object of the host (a
    loaded module or one of its attributes), one of the two sentinel
    objects, one of the marker classes [_Future] and [NotFound], or [None]
    when the function falls off its end. *)
Inductive Entity {host : Host} :=
  | EObj (o : PyObj)
  | ESentinel (l : loc)
  | EFuture
  | ENotFound
  | ENone.

Section Resolver.
Context {host : Host}.

(** [importlib.import_module(v)].  A string reaches the loader.  Anything
    else fails on [v.startswith('.')] before the loader is asked. *)
Definition py_import (v : SlotValue) (w : World) : World * Res PyObj :=
  match v with
  | VStr s => (log (EvImport s) w, import_module s)
  | VNone =>
      (w, Raise (Exc AttributeError "'NoneType' object has no attribute 'startswith'"))
  | VFuture =>
      (w, Raise (Exc AttributeError "type object '_Future' has no attribute 'startswith'"))
  end.

(** The body of the [try] (lines 245-247). *)
Definition try_primary (name : string) (st : State) (w : World)
    : World * Res Entity :=
  if str_eq_slot name (value (deref (State_main st w) w)) then
    let '(w1, r) := py_import (VStr name) w in
    (w1, Res_map EObj r)
  else
    let '(w1, r) := py_import (value (deref (State_main st w) w)) w in
    match r with
    | Ret m => (w1, Res_map EObj (getattr_module m name))
    | Raise e => (w1, Raise e)
    end.

(** The [except] handler (lines 249-275). *)
Definition handle_failure (name : string) (st : State) (w : World)
    : World * Res Entity :=
  if negb (empty (deref (State_fallback st w) w)) then
    if str_eq_slot name (value (deref (State_fallback st w) w)) then
      let '(w1, r) := py_import (VStr name) w in
      match r with
      | Ret m => (w1, Ret (EObj m))
      | Raise e =>
          if caught_by [ImportError] e then
            if truthy (State_raises st w1) then
              (w1, Raise (Exc ImportError
                 ("Module '" ++ format_slot (value (deref (State_fallback st w1) w1))
                  ++ "' not found")))
            else (w1, Ret ENotFound)
          else (w1, Raise e)
      end
    else if truthy (State_raises st w) then
      let '(w1, r) := py_import (value (deref (State_fallback st w) w)) w in
      match r with
      | Ret m => (w1, Res_map EObj (getattr_module m name))
      | Raise e => (w1, Raise e)
      end
    else
      let '(w1, r) := py_import (value (deref (State_fallback st w) w)) w in
      match r with
      | Ret m => (w1, getattr_default EObj m name ENotFound)
      | Raise e => (w1, Raise e)
      end
  else if truthy (State_raises st w) then
    (w, Raise (Exc ImportError
       ("Module '" ++ format_slot (value (deref (State_main st w) w))
        ++ "' has no attribute '" ++ name ++ "'")))
  else (w, Ret ENotFound).

(** Lines 233-241: a sentinel marked [future] takes the looked-up name. *)
Definition consume_main (name : string) (st : State) (w : World) : World :=
  if future (deref (State_main st w) w) then
    let w1 := set_value (State_main st w) (VStr name) w in
    let w2 := set_future (State_main st w1) false w1 in
    log (EvPrint ("Setting state.main to " ++ name)) w2
  else w.

Definition consume_fallback (name : string) (st : State) (w : World) : World :=
  if future (deref (State_fallback st w) w) then
    let w1 := set_value (State_fallback st w) (VStr name) w in
    let w2 := set_future (State_fallback st w1) false w1 in
    log (EvPrint ("Setting state.fallback to " ++ name)) w2
  else w.

(** [__getattr__(name, state=None)].  The state object is passed by
    reference in Python; the function only ever assigns attributes of the
    sentinels it reaches through it, never of the state object itself, so
    its instance dictionary is passed by value here.  The final
    [return _Future] (line 276) belongs to the [else] block: the [_reset]
    branch has no [return] and the call yields [None]. *)
Definition __getattr__ (name : string) (arg : option State) (w : World)
    : World * Res Entity :=
  let st := match arg with None => State_new | Some s => s end in
  if String.eqb name "_reset" then
    (State_reset st w, Ret ENone)
  else if String.eqb name "_main" then
    let w1 := set_value (State_main st w) VFuture w in
    let w2 := set_empty (State_main st w1) false w1 in
    let w3 := set_future (State_main st w2) true w2 in
    (w3, Ret (ESentinel (State_main st w3)))
  else if String.eqb name "_fallback" then
    let w1 := set_value (State_fallback st w) VFuture w in
    let w2 := set_empty (State_fallback st w1) false w1 in
    let w3 := set_future (State_fallback st w2) true w2 in
    (w3, Ret (ESentinel (State_fallback st w3)))
  else
    let w1 := consume_main name st w in
    let w2 := consume_fallback name st w1 in
    if truthy_slot (value (deref (State_main st w2) w2)) then
      let '(w3, r) := try_primary name st w2 in
      match r with
      | Ret v => (w3, Ret v)
      | Raise e =>
          if caught_by [ImportError; AttributeError; ModuleNotFoundError] e
          then handle_failure name st w3
          else (w3, Raise e)
      end
    else (w2, Ret EFuture).

(** The module-level entry point: Python calls the module's
    [__getattr__] with the name alone (for names the module's own globals
    do not bind). *)
Definition module_getattr (name : string) (w : World) : World * Res Entity :=
  __getattr__ name None w.

(** ** class [Import] *)

Record Import := mkImport {
  main : string;
  fallback : string;
  _old_state : option State
}.

(** [Import(main, fallback, raises=True)] *)
Definition Import_init (main_ fallback_ : string) (raises : bool) (w : World)
    : World * Import :=
  let self := mkImport main_ fallback_ None in
  if negb raises then (set_state (State_catch (state w)) w, self)
  else (w, self).

(** [Import.valid(entity)]: [entity is not NotFound] *)
Definition Import_valid (entity : Entity) : bool :=
  match entity with
  | ENotFound => false
  | _ => true
  end.

(** [self.enter()] *)
Definition Import_enter (self : Import) (w : World) : World * Import :=
  let old0 := State_new in
  let '(m, w1) := Sentinel_copy (State_main (state w) w) w in
  let old1 := mkState (Some m) (inst_fallback old0) (inst_raise_exc old0) in
  let '(f, w2) := Sentinel_copy (State_fallback (state w1) w1) w1 in
  let old2 := mkState (inst_main old1) (Some f) (inst_raise_exc old1) in
  let w3 := set_value (State_main (state w2) w2) (VStr (main self)) w2 in
  let w4 := set_empty (State_main (state w3) w3) false w3 in
  let w5 := set_future (State_main (state w4) w4) false w4 in
  let w6 := set_value (State_fallback (state w5) w5) (VStr (fallback self)) w5 in
  let w7 := set_empty (State_fallback (state w6) w6) false w6 in
  let w8 := set_future (State_fallback (state w7) w7) false w7 in
  (w8, mkImport (main self) (fallback self) (Some old2)).

(** [self.exit(exc_type, exc_val, exc_tb)].  The three arguments describe
    how the body ended ([None] when it completed); they are not read.
    Before [enter], [_old_state] is [None] and reading [.main] from it
    raises. *)
Definition Import_exit (self : Import) (exc : option Exn) (w : World)
    : World * Res unit :=
  match _old_state self with
  | None =>
      (w, Raise (Exc AttributeError "'NoneType' object has no attribute 'main'"))
  | Some old =>
      let '(m, w1) := Sentinel_copy (State_main old w) w in
      let w2 := set_state (mkState (Some m) (inst_fallback (state w1))
                                   (inst_raise_exc (state w1))) w1 in
      let '(f, w3) := Sentinel_copy (State_fallback old w2) w2 in
      let w4 := set_state (mkState (inst_main (state w3)) (Some f)
                                   (inst_raise_exc (state w3))) w3 in
      (w4, Ret tt)
  end.

(** [self.reset_state()] *)
Definition Import_reset_state (self : Import) (w : World) : World :=
  State_reset (state w) w.

(** [self.get_entity(name)] and [self.__getattr__(name)]: both pass the
    module global [state]. *)
Definition Import_get_entity (self : Import) (name : string) (w : World)
    : World * Res Entity :=
  __getattr__ name (Some (state w)) w.

Definition Import___getattr__ (self : Import) (name : string) (w : World)
    : World * Res Entity :=
  __getattr__ name (Some (state w)) w.

(** [__enter__]/[__aenter__] and [__exit__]/[__aexit__] delegate. *)
Definition Import___enter__ (self : Import) (w : World) : World * Import :=
  Import_enter self w.

Definition Import___exit__ (self : Import) (exc : option Exn) (w : World)
    : World * Res unit :=
  Import_exit self exc w.

(** [with Import(main, fallback, raises) as h: body].  The [Import] object
    is mutable and the body holds a reference to it: the body is given the
    object as [__enter__] left it and hands it back as it leaves it (a
    body that calls [h.enter()] again hands back an object with a new
    [_old_state]).  [__exit__] runs on the object as the body left it,
    however the body ended, and returns [None], so an exception of the body
    propagates after the restore. *)
Definition with_Import_st {A} (main_ fallback_ : string) (raises : bool)
    (body : Import -> World -> World * Import * Res A) (w : World) : World * Res A :=
  let '(w0, h0) := Import_init main_ fallback_ raises w in
  let '(w1, h) := Import___enter__ h0 w0 in
  let '(w2, h', r) := body h w1 in
  let exc := match r with Ret _ => None | Raise e => Some e end in
  let '(w3, x) := Import___exit__ h' exc w2 in
  match x with
  | Ret _ => (w3, r)
  | Raise e => (w3, Raise e)
  end.

(** The [with] statement for a body that does not call [enter] or [exit]
    on the handle it is given: the object reaches [__exit__] as
    [__enter__] returned it. *)
Definition with_Import {A} (main_ fallback_ : string) (raises : bool)
    (body : Import -> World -> World * Res A) (w : World) : World * Res A :=
  with_Import_st main_ fallback_ raises
    (fun h v => let '(v', r) := body h v in (v', h, r)) w.

(** *** What client code can do to the world through the public surface

    One step is the effect on the world of one public operation.  The
    [Import] objects themselves are not part of the world: a statement
    that follows one particular handle through [enter] and [exit] threads
    that object explicitly, and [step_enter]/[step_exit] account for the
    world effect of these operations on any handle. *)
Inductive api_step : World -> World -> Prop :=
  | step_handle_lookup h name w :
      api_step w (Import_get_entity h name w).1
  | step_module_lookup name w :
      api_step w (module_getattr name w).1
  | step_reset_state h w :
      api_step w (Import_reset_state h w)
  | step_init p f raises w :
      api_step w (Import_init p f raises w).1
  | step_enter h w :
      api_step w (Import_enter h w).1
  | step_exit h exc w :
      api_step w (Import_exit h exc w).1.

End Resolver.

(** ** A table-driven host for concrete runs

    A host given by a finite table: the loadable namespaces with the
    symbols each defines.  A loaded module is identified by its name, an
    attribute by its owner and its own name.  A namespace missing from
    the table fails to load with [ModuleNotFoundError]; a symbol missing
    from a namespace fails with [AttributeError]. *)

Inductive TableObj :=
  | TModule (name : string)
  | TAttr (owner name : string).

Definition table_import (tbl : list (string * list string)) (name : string)
    : Res TableObj :=
  if existsb (fun e => String.eqb (fst e) name) tbl then Ret (TModule name)
  else Raise (Exc ModuleNotFoundError ("No module named '" ++ name ++ "'")).

Definition table_getattr (tbl : list (string * list string)) (m : TableObj)
    (name : string) : Res TableObj :=
  match m with
  | TModule owner =>
      if existsb (fun e => String.eqb (fst e) owner
                           && existsb (String.eqb name) (snd e)) tbl
      then Ret (TAttr owner name)
      else Raise (Exc AttributeError
             ("module '" ++ owner ++ "' has no attribute '" ++ name ++ "'"))
  | TAttr _ _ =>
      Raise (Exc AttributeError ("object has no attribute '" ++ name ++ "'"))
  end.

Definition table_host (tbl : list (string * list string)) : Host :=
  {| PyObj := TableObj;
     import_module := table_import tbl;
     getattr_module := table_getattr tbl |}.

(** [typing] lacks [Doc], [typing_extensions] has it; both have
    [Protocol]; [datetime] defines a symbol called [datetime]. *)
Definition demo_table : list (string * list string) :=
  [ ("typing", ["Protocol"; "final"]);
    ("typing_extensions", ["Protocol"; "final"; "Doc"]);
    ("datetime", ["datetime"; "timedelta"]);
    ("json", ["loads"; "dumps"]) ].

Definition demo_host : Host := table_host demo_table.

(** * Vocabulary of the statements *)

(** The state object the resolver works on. *)
Definition state_of (arg : option State) : State :=
  match arg with None => State_new | Some s => s end.

(** The three control names. *)
Definition reserved (name : string) : Prop :=
  name = "_reset" \/ name = "_main" \/ name = "_fallback".

(** The names of the namespaces the loader was asked for, oldest first. *)
Definition loader_calls (w : World) : list string :=
  omap (fun ev => match ev with EvImport n => Some n | EvPrint _ => None end) (events w).

(** The sentinel [s] holds the namespace name [P]: a non-empty string, no
    deferral pending. *)
Definition holds_name (s : Sentinel) (P : string) : Prop :=
  value s = VStr P /\ P ≠ EmptyString /\ future s = false.

(** The attempt on namespace [P] for [name] fails in one of the ways the
    [except] clause covers: the namespace does not load, or [name] is not
    the namespace's own name and the loaded namespace lacks the symbol. *)
Definition attempt_fails {host : Host} (P name : string) : Prop :=
  exists e, caught_by [ImportError; AttributeError; ModuleNotFoundError] e = true /\
    (import_module P = Raise e \/
     (name ≠ P /\ exists m, import_module P = Ret m /\ getattr_module m name = Raise e)).

(** What a pending deferral makes of a sentinel when [name] is looked up. *)
Definition consumed (name : string) (s : Sentinel) : Sentinel :=
  if future s then mkSentinel (VStr name) (empty s) false else s.

(** [frame a b w w']: going from [w] to [w'] allocates nothing, rebinds
    neither the global [state] nor a class attribute, and leaves every
    sentinel other than [a] and [b] as it was. *)
Record frame (a b : loc) (w w' : World) : Prop := mkFrame {
  frame_next : next w' = next w;
  frame_state : state w' = state w;
  frame_cls_main : cls_main w' = cls_main w;
  frame_cls_fallback : cls_fallback w' = cls_fallback w;
  frame_cls_raise_exc : cls_raise_exc w' = cls_raise_exc w;
  frame_heap : forall l, l ≠ a -> l ≠ b -> deref l w' = deref l w
}.

(** An operation that leaves the store alone altogether (it may log). *)
Definition same_store (w w' : World) : Prop :=
  heap w' = heap w /\ next w' = next w /\ state w' = state w /\
  cls_main w' = cls_main w /\ cls_fallback w' = cls_fallback w /\
  cls_raise_exc w' = cls_raise_exc w.

(** The sentinels the module global [state] reaches. *)
Definition live_main (w : World) : loc := State_main (state w) w.
Definition live_fallback (w : World) : loc := State_fallback (state w) w.

(** The sentinels reachable from the class attributes or from [state]. *)
Definition root (l : loc) (w : World) : Prop :=
  l = cls_main w \/ l = cls_fallback w \/ l = live_main w \/ l = live_fallback w.

(** Well-formed worlds: every reachable sentinel has been allocated, and
    primary and fallback are different objects. *)
Definition wf (w : World) : Prop :=
  (forall l, root l w -> l < next w) /\
  live_main w ≠ live_fallback w /\
  cls_main w ≠ cls_fallback w.

(** The error-policy flag as read through the module global [state]. *)
Definition live_raise_exc (w : World) : bool := State_raise_exc (state w) w.

(** [l] is an allocated sentinel that neither the class attributes nor
    [state] reach: a snapshot, or garbage. *)
Definition protected (l : loc) (w : World) : Prop := l < next w /\ ¬ root l w.

(** What one step through the public surface preserves. *)
Definition step_inv (w w' : World) : Prop :=
  wf w' /\ next w <= next w' /\
  (forall l, protected l w -> protected l w' /\ deref l w' = deref l w).

(** The world inside [with Import(p, f, raises) as h:], entered from [w],
    and the handle. *)
Definition open_scope (p f : string) (raises : bool) (w : World) : World * Import :=
  let '(w0, h0) := Import_init p f raises w in
  Import_enter h0 w0.

(** [with Import(p, f, raises): pass] *)
Definition pass_scope (p f : string) (raises : bool) (w : World) : World :=
  (with_Import p f raises (fun _ v => (v, Ret tt)) w).1.

(** Primary precedence read literally, for every ordinary name: whenever
    the primary sentinel holds [P] and [P] defines [S], the lookup of [S]
    returns that symbol. *)
Definition primary_symbol_always_returned (host : Host) : Prop :=
  forall (S : string) (arg : option State) (w : World) (P : string) (m v : PyObj),
    ¬ reserved S ->
    holds_name (deref (State_main (state_of arg) w) w) P ->
    import_module P = Ret m ->
    getattr_module m S = Ret v ->
    (__getattr__ S arg w).2 = Ret (EObj v).

(** The world inside [with Import('typing', 'typing_extensions'):], opened
    in a fresh process. *)
Definition typing_scope : World :=
  (open_scope "typing" "typing_extensions" true initial_world).1.

(** The exception [e] comes out of a call the resolver makes to the host:
    [importlib.import_module] (on a string or not) or [getattr] on a loaded
    module. *)
Definition raised_by_host {host : Host} (e : Exn) : Prop :=
  (exists v w, (py_import v w).2 = Raise e) \/
  (exists m s, getattr_module m s = Raise e).

(** A table-driven host that, like [importlib.import_module], rejects the
    empty name with [ValueError] and a relative name (no package is given)
    with [TypeError] before it looks anything up. *)
Definition guarded_import (tbl : list (string * list string)) (name : string)
    : Res TableObj :=
  if String.eqb name EmptyString then Raise (Exc ValueError "Empty module name")
  else if String.prefix "." name then
    Raise (Exc TypeError
             ("the 'package' argument is required to perform a relative import for '"
              ++ name ++ "'")%string)
  else table_import tbl name.

Definition guarded_host : Host :=
  {| PyObj := TableObj;
     import_module := guarded_import demo_table;
     getattr_module := table_getattr demo_table |}.

(** Two worlds that differ at most in the policy flag: same store, same
    class-level sentinels, the same two sentinels bound on [state]. *)
Definition flag_eq (w w' : World) : Prop :=
  heap w' = heap w /\ next w' = next w /\
  cls_main w' = cls_main w /\ cls_fallback w' = cls_fallback w /\
  inst_main (state w') = inst_main (state w) /\
  inst_fallback (state w') = inst_fallback (state w) /\
  events w' = events w.

(** The world after [safelib._main] and [safelib.typing] in a fresh
    process (table-driven host): [typing] is the primary, no fallback. *)
Definition typing_only : World :=
  (module_getattr (host := demo_host) "typing"
     (module_getattr (host := demo_host) "_main" initial_world).1).1.

(** The world inside [with Import('.rel', 'json'):], opened in a fresh
    process. *)
Definition relative_scope : World :=
  (open_scope ".rel" "json" true initial_world).1.

(** * Properties *)

Local Open Scope list_scope.

(** ** The store *)

Lemma deref_store l l' s w :
  deref l (store l' s w) = if decide (l' = l) then s else deref l w.
Proof. unfold deref, store; simpl. apply lookup_total_insert. Qed.

Lemma deref_store_eq l s w : deref l (store l s w) = s.
Proof. rewrite deref_store. by case_decide. Qed.

Lemma deref_store_ne l l' s w : l' ≠ l -> deref l (store l' s w) = deref l w.
Proof. intros. rewrite deref_store. by case_decide. Qed.

Lemma deref_log l ev w : deref l (log ev w) = deref l w.
Proof. reflexivity. Qed.

Lemma deref_set_state l st w : deref l (set_state st w) = deref l w.
Proof. reflexivity. Qed.

Lemma deref_set_value l l' v w :
  deref l (set_value l' v w) =
  if decide (l' = l) then mkSentinel v (empty (deref l' w)) (future (deref l' w))
  else deref l w.
Proof. apply deref_store. Qed.

Lemma deref_set_empty l l' b w :
  deref l (set_empty l' b w) =
  if decide (l' = l) then mkSentinel (value (deref l' w)) b (future (deref l' w))
  else deref l w.
Proof. apply deref_store. Qed.

Lemma deref_set_future l l' b w :
  deref l (set_future l' b w) =
  if decide (l' = l) then mkSentinel (value (deref l' w)) (empty (deref l' w)) b
  else deref l w.
Proof. apply deref_store. Qed.

(** Three assignments in a row fix the whole sentinel. *)
Lemma deref_assign3 l l' v e f w :
  deref l (set_future l' f (set_empty l' e (set_value l' v w))) =
  if decide (l' = l) then mkSentinel v e f else deref l w.
Proof.
  rewrite deref_set_future, !deref_set_empty, !deref_set_value.
  repeat case_decide; simpl; congruence.
Qed.

Lemma deref_Sentinel_reset l self w :
  deref l (Sentinel_reset self w) =
  if decide (self = l) then Sentinel_new else deref l w.
Proof. unfold Sentinel_reset. apply deref_assign3. Qed.

Lemma deref_alloc l s w :
  deref l (alloc s w).2 = if decide (next w = l) then s else deref l w.
Proof. unfold deref, alloc; simpl. apply lookup_total_insert. Qed.

Lemma deref_Sentinel_copy l self w :
  deref l (Sentinel_copy self w).2 =
  if decide (next w = l)
  then (if decide (next w = self) then Sentinel_new else deref self w)
  else deref l w.
Proof.
  unfold Sentinel_copy.
  destruct (alloc Sentinel_new w) as [s w1] eqn:E.
  assert (s = next w) as -> by (by inversion E).
  assert (w1 = (alloc Sentinel_new w).2) as -> by (by rewrite E).
  cbn [snd]. rewrite deref_assign3.
  case_decide; [|by rewrite deref_alloc; case_decide].
  rewrite !deref_set_empty, !deref_set_value, !deref_alloc.
  repeat case_decide; try congruence; simpl.
  - reflexivity.
  - by destruct (deref self w).
Qed.

Lemma Sentinel_copy_loc self w : (Sentinel_copy self w).1 = next w.
Proof. reflexivity. Qed.

Lemma Sentinel_copy_next self w : next (Sentinel_copy self w).2 = S (next w).
Proof. reflexivity. Qed.

(** ** Frames: which part of the world an operation can change *)

Lemma frame_refl a b w : frame a b w w.
Proof. by constructor. Qed.

Lemma frame_trans a b w1 w2 w3 : frame a b w1 w2 -> frame a b w2 w3 -> frame a b w1 w3.
Proof.
  intros [? ? ? ? ? H12] [? ? ? ? ? H23]; constructor; try congruence.
  intros l ? ?. rewrite H23, H12; done.
Qed.

Lemma frame_store_l a b s w : frame a b w (store a s w).
Proof. constructor; try reflexivity. intros. by apply deref_store_ne. Qed.

Lemma frame_store_r a b s w : frame a b w (store b s w).
Proof. constructor; try reflexivity. intros. by apply deref_store_ne. Qed.

Lemma frame_log a b ev w : frame a b w (log ev w).
Proof. by constructor. Qed.

Lemma frame_State_main a b st w w' : frame a b w w' -> State_main st w' = State_main st w.
Proof. intros []. unfold State_main. congruence. Qed.

Lemma frame_State_fallback a b st w w' :
  frame a b w w' -> State_fallback st w' = State_fallback st w.
Proof. intros []. unfold State_fallback. congruence. Qed.

Lemma frame_Sentinel_reset_l a b w : frame a b w (Sentinel_reset a w).
Proof.
  constructor; try reflexivity.
  intros. rewrite deref_Sentinel_reset. by case_decide.
Qed.

Lemma frame_Sentinel_reset_r a b w : frame a b w (Sentinel_reset b w).
Proof.
  constructor; try reflexivity.
  intros. rewrite deref_Sentinel_reset. by case_decide.
Qed.

Lemma frame_State_reset st w :
  frame (State_main st w) (State_fallback st w) w (State_reset st w).
Proof.
  unfold State_reset.
  eapply frame_trans; [apply frame_Sentinel_reset_l|].
  apply frame_Sentinel_reset_r.
Qed.

Lemma same_store_refl w : same_store w w.
Proof. by repeat split. Qed.

Lemma same_store_log ev w : same_store w (log ev w).
Proof. by repeat split. Qed.

Lemma same_store_frame a b w w' : same_store w w' -> frame a b w w'.
Proof.
  intros (Hh & ? & ? & ? & ? & ?). constructor; try done.
  intros. unfold deref. by rewrite Hh.
Qed.

Lemma same_store_deref l w w' : same_store w w' -> deref l w' = deref l w.
Proof. intros (Hh & _). unfold deref. by rewrite Hh. Qed.

Lemma same_store_State_main st w w' : same_store w w' -> State_main st w' = State_main st w.
Proof. intros (_ & _ & _ & Hm & _). unfold State_main. by rewrite Hm. Qed.

Lemma same_store_State_fallback st w w' :
  same_store w w' -> State_fallback st w' = State_fallback st w.
Proof. intros (_ & _ & _ & _ & Hf & _). unfold State_fallback. by rewrite Hf. Qed.

(** ** The resolver *)

Section ResolverFacts.
Context {host : Host}.

(** The accessor never reports a raising policy. *)
Lemma State_raises_falsy st w : truthy (State_raises st w) = false.
Proof. reflexivity. Qed.

Lemma reserved_eqb name :
  ¬ reserved name ->
  String.eqb name "_reset" = false /\ String.eqb name "_main" = false /\
  String.eqb name "_fallback" = false.
Proof.
  intros Hn. repeat split; apply String.eqb_neq; intros ->; apply Hn; unfold reserved; auto.
Qed.

Lemma py_import_same_store v w : same_store w (py_import v w).1.
Proof. destruct v; simpl; auto using same_store_refl, same_store_log. Qed.

Lemma py_import_result v w w' : (py_import v w).2 = (py_import v w').2.
Proof. by destruct v. Qed.

Lemma py_import_str s w : py_import (VStr s) w = (log (EvImport s) w, import_module s).
Proof. reflexivity. Qed.

Lemma loader_calls_log_import s w :
  loader_calls (log (EvImport s) w) = loader_calls w ++ [s].
Proof. unfold loader_calls, log; simpl. by rewrite omap_app. Qed.

Lemma loader_calls_log_print s w :
  loader_calls (log (EvPrint s) w) = loader_calls w.
Proof. unfold loader_calls, log; simpl. rewrite omap_app; simpl. by rewrite app_nil_r. Qed.

Lemma try_primary_same_store name st w : same_store w (try_primary name st w).1.
Proof.
  unfold try_primary.
  destruct (str_eq_slot _ _).
  - destruct (py_import (VStr name) w) as [w1 r] eqn:E.
    change w1 with (w1, r).1. rewrite <- E. apply py_import_same_store.
  - destruct (py_import _ w) as [w1 r] eqn:E.
    assert (same_store w w1).
    { change w1 with (w1, r).1. rewrite <- E. apply py_import_same_store. }
    by destruct r.
Qed.

Lemma handle_failure_same_store name st w : same_store w (handle_failure name st w).1.
Proof.
  unfold handle_failure.
  destruct (negb _); [|rewrite State_raises_falsy; apply same_store_refl].
  destruct (str_eq_slot _ _).
  - destruct (py_import (VStr name) w) as [w1 r] eqn:E.
    assert (same_store w w1).
    { change w1 with (w1, r).1. rewrite <- E. apply py_import_same_store. }
    destruct r; [done|]. destruct (caught_by _ _); [|done].
    by rewrite State_raises_falsy.
  - rewrite State_raises_falsy.
    destruct (py_import _ w) as [w1 r] eqn:E.
    assert (same_store w w1).
    { change w1 with (w1, r).1. rewrite <- E. apply py_import_same_store. }
    by destruct r.
Qed.

Lemma deref_consume_main l name st w :
  deref l (consume_main name st w) =
  if decide (State_main st w = l) then consumed name (deref l w) else deref l w.
Proof.
  unfold consume_main, consumed; cbv zeta.
  case_decide as Hl.
  - subst l. destruct (future (deref (State_main st w) w)) eqn:Hf; [|done].
    change (State_main st (set_value _ _ w)) with (State_main st w).
    rewrite deref_log, deref_set_future, !deref_set_value.
    by rewrite !decide_True by done.
  - destruct (future (deref (State_main st w) w)); [|done].
    change (State_main st (set_value _ _ w)) with (State_main st w).
    rewrite deref_log, deref_set_future, !deref_set_value.
    repeat case_decide; congruence.
Qed.

Lemma deref_consume_fallback l name st w :
  deref l (consume_fallback name st w) =
  if decide (State_fallback st w = l) then consumed name (deref l w) else deref l w.
Proof.
  unfold consume_fallback, consumed; cbv zeta.
  case_decide as Hl.
  - subst l. destruct (future (deref (State_fallback st w) w)) eqn:Hf; [|done].
    change (State_fallback st (set_value _ _ w)) with (State_fallback st w).
    rewrite deref_log, deref_set_future, !deref_set_value.
    by rewrite !decide_True by done.
  - destruct (future (deref (State_fallback st w) w)); [|done].
    change (State_fallback st (set_value _ _ w)) with (State_fallback st w).
    rewrite deref_log, deref_set_future, !deref_set_value.
    repeat case_decide; congruence.
Qed.

Lemma consumed_idemp name s : consumed name (consumed name s) = consumed name s.
Proof. unfold consumed. by destruct (future s) eqn:E; simpl; rewrite ?E. Qed.

Lemma frame_consume_main name st w :
  frame (State_main st w) (State_fallback st w) w (consume_main name st w).
Proof.
  constructor; try (unfold consume_main; by destruct (future _)).
  intros l ? ?. rewrite deref_consume_main. by case_decide.
Qed.

Lemma frame_consume_fallback name st w :
  frame (State_main st w) (State_fallback st w) w (consume_fallback name st w).
Proof.
  constructor; try (unfold consume_fallback; by destruct (future _)).
  intros l ? ?. rewrite deref_consume_fallback. by case_decide.
Qed.

(** After both deferral steps each of the two sentinels is the [consumed]
    version of what it was, also when both names reach the same object. *)
Lemma deref_consume_both_main name st w :
  deref (State_main st w) (consume_fallback name st (consume_main name st w)) =
  consumed name (deref (State_main st w) w).
Proof.
  rewrite deref_consume_fallback.
  case_decide; rewrite deref_consume_main; case_decide; try done.
  apply consumed_idemp.
Qed.

Lemma deref_consume_both_fallback name st w :
  deref (State_fallback st w) (consume_fallback name st (consume_main name st w)) =
  consumed name (deref (State_fallback st w) w).
Proof.
  assert (State_fallback st (consume_main name st w) = State_fallback st w) as Hf
    by (unfold consume_main; by destruct (future _)).
  rewrite deref_consume_fallback, Hf.
  case_decide; [|done].
  rewrite deref_consume_main. case_decide; try done.
  apply consumed_idemp.
Qed.

Lemma frame_consume_both name st w :
  frame (State_main st w) (State_fallback st w) w
        (consume_fallback name st (consume_main name st w)).
Proof.
  pose proof (frame_consume_main name st w) as F1.
  pose proof (frame_consume_fallback name st (consume_main name st w)) as F2.
  rewrite (frame_State_main _ _ st _ _ F1), (frame_State_fallback _ _ st _ _ F1) in F2.
  exact (frame_trans _ _ _ _ _ F1 F2).
Qed.

End ResolverFacts.

Section ResolverOutcome.
Context {host : Host}.

(** For a name that is not a control name the resolver is its last branch. *)
Lemma getattr_ordinary name arg w :
  ¬ reserved name ->
  __getattr__ name arg w =
  let st := state_of arg in
  let w2 := consume_fallback name st (consume_main name st w) in
  if truthy_slot (value (deref (State_main st w2) w2)) then
    let '(w3, r) := try_primary name st w2 in
    match r with
    | Ret v => (w3, Ret v)
    | Raise e =>
        if caught_by [ImportError; AttributeError; ModuleNotFoundError] e
        then handle_failure name st w3
        else (w3, Raise e)
    end
  else (w2, Ret EFuture).
Proof.
  intros (H1 & H2 & H3)%reserved_eqb.
  unfold __getattr__. by rewrite H1, H2, H3.
Qed.

(** The resolver allocates nothing, rebinds nothing, and writes to no
    sentinel other than the two its state argument reaches. *)
Lemma frame_getattr name arg w :
  frame (State_main (state_of arg) w) (State_fallback (state_of arg) w) w
        (__getattr__ name arg w).1.
Proof.
  unfold __getattr__. fold (state_of arg). set (st := state_of arg).
  destruct (String.eqb name "_reset"); [apply frame_State_reset|].
  destruct (String.eqb name "_main").
  { simpl. constructor; try reflexivity.
    intros l Hl _. rewrite deref_assign3. by case_decide. }
  destruct (String.eqb name "_fallback").
  { simpl. constructor; try reflexivity.
    intros l _ Hl. rewrite deref_assign3. by case_decide. }
  cbv zeta.
  set (w1 := consume_main name st w).
  pose proof (frame_consume_main name st w) as F1. fold w1 in F1.
  pose proof (frame_consume_fallback name st w1) as F2.
  rewrite (frame_State_main _ _ st _ _ F1), (frame_State_fallback _ _ st _ _ F1) in F2.
  set (w2 := consume_fallback name st w1) in *.
  pose proof (frame_trans _ _ _ _ _ F1 F2) as F12.
  destruct (truthy_slot _); [|exact F12].
  pose proof (try_primary_same_store name st w2) as S3.
  destruct (try_primary name st w2) as [w3 r]. cbn [fst snd] in S3.
  pose proof (frame_trans _ _ _ _ _ F12 (same_store_frame _ _ _ _ S3)) as F123.
  destruct r as [v|e]; [exact F123|].
  destruct (caught_by _ e); [|exact F123].
  eapply frame_trans; [exact F123|].
  apply same_store_frame, handle_failure_same_store.
Qed.

Lemma try_primary_ext name st st' w w' :
  value (deref (State_main st w) w) = value (deref (State_main st' w') w') ->
  (try_primary name st w).2 = (try_primary name st' w').2.
Proof.
  intros Hv. unfold try_primary. rewrite <- Hv.
  destruct (str_eq_slot _ _).
  - pose proof (py_import_result (VStr name) w w') as Hr.
    destruct (py_import (VStr name) w), (py_import (VStr name) w'). cbn [fst snd] in *. by subst.
  - pose proof (py_import_result (value (deref (State_main st w) w)) w w') as Hr.
    destruct (py_import _ w) as [? r], (py_import _ w') as [? r']. cbn [fst snd] in *. subst r'.
    by destruct r.
Qed.

Lemma handle_failure_ext name st st' w w' :
  value (deref (State_main st w) w) = value (deref (State_main st' w') w') ->
  deref (State_fallback st w) w = deref (State_fallback st' w') w' ->
  (handle_failure name st w).2 = (handle_failure name st' w').2.
Proof.
  intros Hm Hf. unfold handle_failure. rewrite <- Hm, <- Hf.
  destruct (negb _); [|by rewrite !State_raises_falsy].
  destruct (str_eq_slot _ _).
  - pose proof (py_import_result (VStr name) w w') as Hr.
    destruct (py_import (VStr name) w) as [? r], (py_import (VStr name) w') as [? r'].
    cbn [fst snd] in *. subst r'. destruct r; [done|].
    destruct (caught_by _ _); [|done]. by rewrite !State_raises_falsy.
  - rewrite !State_raises_falsy.
    pose proof (py_import_result (value (deref (State_fallback st w) w)) w w') as Hr.
    destruct (py_import _ w) as [? r], (py_import _ w') as [? r']. cbn [fst snd] in *. subst r'.
    by destruct r.
Qed.

(** The outcome of an ordinary lookup is a function of the two sentinels
    once pending deferrals are taken: two worlds that agree on them give
    the same answer. *)
Lemma getattr_outcome_ext name arg arg' w w' :
  name ≠ "_main" -> name ≠ "_fallback" ->
  consumed name (deref (State_main (state_of arg) w) w) =
    consumed name (deref (State_main (state_of arg') w') w') ->
  consumed name (deref (State_fallback (state_of arg) w) w) =
    consumed name (deref (State_fallback (state_of arg') w') w') ->
  (__getattr__ name arg w).2 = (__getattr__ name arg' w').2.
Proof.
  intros Hn1 Hn2 Hm Hf.
  unfold __getattr__. fold (state_of arg) (state_of arg').
  set (st := state_of arg) in *. set (st' := state_of arg') in *.
  destruct (String.eqb name "_reset"); [done|].
  apply String.eqb_neq in Hn1, Hn2. rewrite Hn1, Hn2. cbv zeta.
  set (w2 := consume_fallback name st (consume_main name st w)).
  set (w2' := consume_fallback name st' (consume_main name st' w')).
  assert (State_main st w2 = State_main st w) as Em
    by exact (frame_State_main _ _ _ _ _ (frame_consume_both name st w)).
  assert (State_main st' w2' = State_main st' w') as Em'
    by exact (frame_State_main _ _ _ _ _ (frame_consume_both name st' w')).
  assert (State_fallback st w2 = State_fallback st w) as Ef
    by exact (frame_State_fallback _ _ _ _ _ (frame_consume_both name st w)).
  assert (State_fallback st' w2' = State_fallback st' w') as Ef'
    by exact (frame_State_fallback _ _ _ _ _ (frame_consume_both name st' w')).
  assert (deref (State_main st w2) w2 = deref (State_main st' w2') w2') as Dm.
  { rewrite Em, Em'. unfold w2, w2'. by rewrite !deref_consume_both_main. }
  assert (deref (State_fallback st w2) w2 = deref (State_fallback st' w2') w2') as Df.
  { rewrite Ef, Ef'. unfold w2, w2'. by rewrite !deref_consume_both_fallback. }
  rewrite <- Dm.
  destruct (truthy_slot _); [|done].
  pose proof (try_primary_ext name st st' w2 w2' (f_equal value Dm)) as Hr.
  pose proof (try_primary_same_store name st w2) as S3.
  pose proof (try_primary_same_store name st' w2') as S3'.
  destruct (try_primary name st w2) as [w3 r], (try_primary name st' w2') as [w3' r'].
  cbn [fst snd] in *. subst r'.
  destruct r as [v|e]; [done|].
  destruct (caught_by _ e); [|done].
  apply handle_failure_ext.
  - rewrite (same_store_State_main _ _ _ S3), (same_store_State_main _ _ _ S3').
    rewrite (same_store_deref _ _ _ S3), (same_store_deref _ _ _ S3').
    by rewrite Dm.
  - rewrite (same_store_State_fallback _ _ _ S3), (same_store_State_fallback _ _ _ S3').
    rewrite (same_store_deref _ _ _ S3), (same_store_deref _ _ _ S3').
    exact Df.
Qed.

End ResolverOutcome.

Section ResolutionOrder.
Context {host : Host}.

Lemma consumed_settled name s : future s = false -> consumed name s = s.
Proof. unfold consumed. by intros ->. Qed.

Lemma loader_calls_consume_main name st w :
  loader_calls (consume_main name st w) = loader_calls w.
Proof.
  unfold consume_main. destruct (future _); [|done].
  cbv zeta. by rewrite loader_calls_log_print.
Qed.

Lemma loader_calls_consume_fallback name st w :
  loader_calls (consume_fallback name st w) = loader_calls w.
Proof.
  unfold consume_fallback. destruct (future _); [|done].
  cbv zeta. by rewrite loader_calls_log_print.
Qed.

Lemma truthy_slot_str P : P ≠ EmptyString -> truthy_slot (VStr P) = true.
Proof. intros HP. simpl. apply negb_true_iff, String.eqb_neq, HP. Qed.

(** The [try] body when the primary sentinel holds the string [P]. *)
Lemma try_primary_str name st w P :
  value (deref (State_main st w) w) = VStr P ->
  try_primary name st w =
  (log (EvImport P) w,
   if String.eqb name P then Res_map EObj (import_module P)
   else match import_module P with
        | Ret m => Res_map EObj (getattr_module m name)
        | Raise e => Raise e
        end).
Proof.
  intros Hv. unfold try_primary. rewrite Hv. simpl.
  destruct (String.eqb name P) eqn:E.
  - apply String.eqb_eq in E. by subst.
  - by destruct (import_module P).
Qed.

(** The handler when the fallback sentinel is assigned the string [F]. *)
Lemma handle_failure_str name st w F :
  empty (deref (State_fallback st w) w) = false ->
  value (deref (State_fallback st w) w) = VStr F ->
  handle_failure name st w =
  (log (EvImport F) w,
   if String.eqb name F then
     match import_module F with
     | Ret m => Ret (EObj m)
     | Raise e => if caught_by [ImportError] e then Ret ENotFound else Raise e
     end
   else
     match import_module F with
     | Ret m => getattr_default EObj m name ENotFound
     | Raise e => Raise e
     end).
Proof.
  intros He Hv. unfold handle_failure. rewrite He, Hv. simpl negb. cbv iota.
  simpl str_eq_slot.
  destruct (String.eqb name F) eqn:E.
  - apply String.eqb_eq in E. subst. rewrite py_import_str.
    destruct (import_module F); [done|].
    destruct (caught_by [ImportError] e); [|done].
    by rewrite State_raises_falsy.
  - rewrite State_raises_falsy, py_import_str.
    by destruct (import_module F).
Qed.

(** The handler when no fallback has been assigned. *)
Lemma handle_failure_empty name st w :
  empty (deref (State_fallback st w) w) = true ->
  handle_failure name st w = (w, Ret ENotFound).
Proof. intros He. unfold handle_failure. by rewrite He, State_raises_falsy. Qed.

(** Whatever the fallback sentinel is, the handler asks the loader at most
    once. *)
Lemma handle_failure_calls name st w :
  exists rest, loader_calls (handle_failure name st w).1 = loader_calls w ++ rest /\
               length rest <= 1.
Proof.
  unfold handle_failure.
  destruct (negb _);
    [|rewrite State_raises_falsy; exists []; by rewrite app_nil_r; simpl; auto].
  assert (forall v, exists rest,
            loader_calls (py_import v w).1 = loader_calls w ++ rest /\ length rest <= 1)
    as Himp.
  { intros [|s|]; simpl.
    - exists []. rewrite app_nil_r. auto.
    - exists [s]. rewrite loader_calls_log_import. auto.
    - exists []. rewrite app_nil_r. auto. }
  destruct (str_eq_slot _ _).
  - destruct (Himp (VStr name)) as (rest & Hr & Hl).
    destruct (py_import (VStr name) w) as [w1 r]. cbn [fst] in Hr.
    exists rest. split; [|done].
    destruct r; [done|]. destruct (caught_by _ _); [|done].
    by rewrite State_raises_falsy.
  - rewrite State_raises_falsy.
    destruct (Himp (value (deref (State_fallback st w) w))) as (rest & Hr & Hl).
    destruct (py_import _ w) as [w1 r]. cbn [fst] in Hr.
    exists rest. split; [|done]. by destruct r.
Qed.

(** An ordinary lookup when the primary sentinel holds [P]: the deferral of
    the fallback (if one is pending) is taken, then the [try] body runs on
    [P]. *)
Lemma getattr_primary_holds name arg w P :
  ¬ reserved name ->
  holds_name (deref (State_main (state_of arg) w) w) P ->
  let st := state_of arg in
  let w2 := consume_fallback name st (consume_main name st w) in
  value (deref (State_main st w2) w2) = VStr P /\
  loader_calls w2 = loader_calls w /\
  __getattr__ name arg w =
    let '(w3, r) := try_primary name st w2 in
    match r with
    | Ret v => (w3, Ret v)
    | Raise e =>
        if caught_by [ImportError; AttributeError; ModuleNotFoundError] e
        then handle_failure name st w3
        else (w3, Raise e)
    end.
Proof.
  intros Hn (Hv & HP & Hf). cbv zeta.
  set (st := state_of arg) in *.
  set (w2 := consume_fallback name st (consume_main name st w)).
  assert (value (deref (State_main st w2) w2) = VStr P) as Hv2.
  { rewrite (frame_State_main _ _ _ _ _ (frame_consume_both name st w)).
    unfold w2. rewrite deref_consume_both_main, consumed_settled; done. }
  split; [done|]. split.
  { unfold w2. by rewrite loader_calls_consume_fallback, loader_calls_consume_main. }
  rewrite getattr_ordinary by done. cbv zeta. fold st w2.
  by rewrite Hv2, truthy_slot_str.
Qed.

End ResolutionOrder.

Section ResolverClaims.
Context {host : Host}.

(** C9 (self-reference).  When the primary sentinel holds the namespace
    name [P], looking up [P] itself returns the module object the loader
    gives for [P], not an attribute of it.  The handler does the same for
    the fallback's own name [F]: when the attempt on the primary fails and
    the assigned fallback sentinel holds [F], looking up [F] returns the
    module object the loader gives for [F]. *)
Theorem self_reference_returns_namespace (name : string) (arg : option State)
    (w : World) (P : string) (m : PyObj) :
  ¬ reserved name ->
  holds_name (deref (State_main (state_of arg) w) w) P ->
  import_module name = Ret m ->
  (name = P ->
     (__getattr__ name arg w).2 = Ret (EObj m) /\
     loader_calls (__getattr__ name arg w).1 = loader_calls w ++ [P]) /\
  (attempt_fails P name ->
   holds_name (deref (State_fallback (state_of arg) w) w) name ->
   empty (deref (State_fallback (state_of arg) w) w) = false ->
     (__getattr__ name arg w).2 = Ret (EObj m) /\
     loader_calls (__getattr__ name arg w).1 = loader_calls w ++ [P; name]).
Proof.
  intros Hn Hh Him.
  destruct (getattr_primary_holds name arg w P Hn Hh) as (Hv2 & Hc2 & ->).
  set (st := state_of arg) in *.
  set (w2 := consume_fallback name st (consume_main name st w)) in *.
  rewrite (try_primary_str name st w2 P Hv2).
  split.
  - intros ->. rewrite String.eqb_refl, Him. simpl.
    by rewrite loader_calls_log_import, Hc2.
  - intros (e & Hcaught & Hfail) (Hfv & HF & Hff) Hfe.
    assert (forall l, deref l w2 = deref l w) as Hsame.
    { intros l. unfold w2. rewrite deref_consume_fallback, deref_consume_main.
      destruct Hh as (_ & _ & Hmf).
      assert (State_fallback st (consume_main name st w) = State_fallback st w) as ->
        by exact (frame_State_fallback _ _ _ _ _ (frame_consume_main name st w)).
      repeat case_decide; subst; rewrite ?consumed_idemp, ?consumed_settled; done. }
    assert (State_fallback st w2 = State_fallback st w) as Ef
      by exact (frame_State_fallback _ _ _ _ _ (frame_consume_both name st w)).
    destruct (String.eqb name P) eqn:E.
    + apply String.eqb_eq in E. subst P. rewrite Him. simpl.
      (* the primary is [name] itself and loads: no failure to handle *)
      destruct Hfail as [Hfail | (Hne & _)]; congruence.
    + assert ((match import_module P with
               | Ret m0 => Res_map EObj (getattr_module m0 name)
               | Raise e0 => Raise e0
               end) = Raise e) as ->.
      { destruct Hfail as [-> | (_ & m' & -> & ->)]; done. }
      rewrite Hcaught.
      rewrite (handle_failure_str name st (log (EvImport P) w2) name).
      * rewrite String.eqb_refl, Him. simpl.
        rewrite !loader_calls_log_import, Hc2. by rewrite <- app_assoc.
      * change (empty (deref (State_fallback st w2) w2) = false).
        by rewrite Ef, Hsame.
      * change (value (deref (State_fallback st w2) w2) = VStr name).
        by rewrite Ef, Hsame.
Qed.

(** C3, as amended (primary first, one fallback attempt).  For an ordinary
    name other than the primary namespace's own name, when the primary
    sentinel holds [P]: the primary namespace is asked first and its symbol
    is returned when it is there, with no second call to the loader; when
    the attempt on the primary fails and the assigned fallback sentinel
    holds [F] (and the name is not [F] itself), the fallback's symbol is
    returned when it is there; and in every case the loader is asked for
    [P] first and then at most once more, the second call happening only
    after the attempt on the primary failed. *)
Theorem primary_first_single_fallback (name : string) (arg : option State)
    (w : World) (P : string) :
  ¬ reserved name ->
  holds_name (deref (State_main (state_of arg) w) w) P ->
  name ≠ P ->
  (forall m v,
     import_module P = Ret m -> getattr_module m name = Ret v ->
     (__getattr__ name arg w).2 = Ret (EObj v) /\
     loader_calls (__getattr__ name arg w).1 = loader_calls w ++ [P]) /\
  (forall F m v,
     attempt_fails P name ->
     holds_name (deref (State_fallback (state_of arg) w) w) F ->
     empty (deref (State_fallback (state_of arg) w) w) = false ->
     name ≠ F ->
     import_module F = Ret m -> getattr_module m name = Ret v ->
     (__getattr__ name arg w).2 = Ret (EObj v) /\
     loader_calls (__getattr__ name arg w).1 = loader_calls w ++ [P; F]) /\
  (exists rest,
     loader_calls (__getattr__ name arg w).1 = loader_calls w ++ P :: rest /\
     length rest <= 1 /\
     (rest = [] \/ attempt_fails P name)).
Proof.
  intros Hn Hh Hne.
  destruct (getattr_primary_holds name arg w P Hn Hh) as (Hv2 & Hc2 & ->).
  set (st := state_of arg) in *.
  set (w2 := consume_fallback name st (consume_main name st w)) in *.
  rewrite (try_primary_str name st w2 P Hv2).
  apply String.eqb_neq in Hne as Hneb. rewrite Hneb.
  split; [|split].
  - intros m v -> ->. simpl. by rewrite loader_calls_log_import, Hc2.
  - intros F m v (e & Hcaught & Hfail) (Hfv & HF & Hff) Hfe HneF HiF HgF.
    assert (forall l, deref l w2 = deref l w) as Hsame.
    { intros l. unfold w2. rewrite deref_consume_fallback, deref_consume_main.
      destruct Hh as (_ & _ & Hmf).
      assert (State_fallback st (consume_main name st w) = State_fallback st w) as ->
        by exact (frame_State_fallback _ _ _ _ _ (frame_consume_main name st w)).
      repeat case_decide; subst; rewrite ?consumed_idemp, ?consumed_settled; done. }
    assert (State_fallback st w2 = State_fallback st w) as Ef
      by exact (frame_State_fallback _ _ _ _ _ (frame_consume_both name st w)).
    assert ((match import_module P with
             | Ret m0 => Res_map EObj (getattr_module m0 name)
             | Raise e0 => Raise e0
             end) = Raise e) as ->.
    { destruct Hfail as [-> | (_ & m' & -> & ->)]; done. }
    rewrite Hcaught.
    rewrite (handle_failure_str name st (log (EvImport P) w2) F).
    + apply String.eqb_neq in HneF. rewrite HneF, HiF.
      unfold getattr_default. rewrite HgF. simpl.
      rewrite !loader_calls_log_import, Hc2. by rewrite <- app_assoc.
    + change (empty (deref (State_fallback st w2) w2) = false).
      by rewrite Ef, Hsame.
    + change (value (deref (State_fallback st w2) w2) = VStr F).
      by rewrite Ef, Hsame.
  - destruct (import_module P) as [m|e] eqn:Hi.
    + destruct (getattr_module m name) as [v|e] eqn:Hg; cbn [Res_map fst snd].
      * exists []. rewrite loader_calls_log_import, Hc2. auto.
      * destruct (caught_by _ e) eqn:Hcaught.
        -- destruct (handle_failure_calls name st (log (EvImport P) w2))
             as (rest & Hr & Hl).
           exists rest. rewrite Hr, loader_calls_log_import, Hc2, <- app_assoc.
           split; [done|]. split; [done|]. right.
           exists e. split; [done|]. right. split; [by apply String.eqb_neq|].
           by exists m.
        -- exists []. simpl. rewrite loader_calls_log_import, Hc2. auto.
    + destruct (caught_by _ e) eqn:Hcaught.
      * destruct (handle_failure_calls name st (log (EvImport P) w2))
          as (rest & Hr & Hl).
        exists rest. rewrite Hr, loader_calls_log_import, Hc2, <- app_assoc.
        split; [done|]. split; [done|]. right.
        exists e. split; [done|]. by left.
      * exists []. simpl. rewrite loader_calls_log_import, Hc2. auto.
Qed.

(** C8 (deferred assignment).  Looking up [_main] leaves the primary
    sentinel with [value = _Future], [empty = False], [future = True] and
    returns that sentinel.  The next lookup of an ordinary name [N] sets
    the primary's value to [N] and clears the flag, and its answer is the
    answer of a lookup of [N] on the state where the primary is already
    assigned [N]: the loader is asked for [N] before anything else, and the
    module it gives is returned. *)
Theorem deferred_assignment (N : string) (arg : option State) (w : World) :
  ¬ reserved N ->
  N ≠ EmptyString ->
  let p := State_main (state_of arg) w in
  let w1 := (__getattr__ "_main" arg w).1 in
  let w2 := (__getattr__ N arg w1).1 in
  (__getattr__ "_main" arg w).2 = Ret (ESentinel p) /\
  deref p w1 = mkSentinel VFuture false true /\
  deref p w2 = mkSentinel (VStr N) false false /\
  (__getattr__ N arg w1).2 =
    (__getattr__ N arg (store p (mkSentinel (VStr N) false false) w1)).2 /\
  (exists rest, loader_calls w2 = loader_calls w1 ++ N :: rest) /\
  (forall m, import_module N = Ret m ->
     (__getattr__ N arg w1).2 = Ret (EObj m) /\
     loader_calls w2 = loader_calls w1 ++ [N]).
Proof.
  intros Hn HN. cbv zeta.
  set (st := state_of arg). set (p := State_main st w).
  assert ((__getattr__ "_main" arg w).1 =
          set_future p true (set_empty p false (set_value p VFuture w))) as E1
    by reflexivity.
  set (w1 := (__getattr__ "_main" arg w).1) in *.
  assert (State_main st w1 = p) as Ep by (by rewrite E1).
  assert (deref p w1 = mkSentinel VFuture false true) as D1.
  { rewrite E1, deref_assign3. by rewrite decide_True. }
  (* the store after the second lookup's deferral steps *)
  set (w2 := consume_fallback N st (consume_main N st w1)).
  assert (deref p w2 = mkSentinel (VStr N) false false) as D2.
  { unfold w2. rewrite <- Ep, deref_consume_both_main, Ep, D1. reflexivity. }
  assert (holds_name (deref (State_main st w2) w2) N) as Hh2.
  { rewrite (frame_State_main _ _ _ _ _ (frame_consume_both N st w1)), Ep, D2.
    by repeat split. }
  assert (loader_calls w2 = loader_calls w1) as Hc2.
  { unfold w2. by rewrite loader_calls_consume_fallback, loader_calls_consume_main. }
  assert (__getattr__ N arg w1 =
          let '(w3, r) := try_primary N st w2 in
          match r with
          | Ret v => (w3, Ret v)
          | Raise e =>
              if caught_by [ImportError; AttributeError; ModuleNotFoundError] e
              then handle_failure N st w3
              else (w3, Raise e)
          end) as E2.
  { rewrite getattr_ordinary by done. cbv zeta. fold st w2.
    destruct Hh2 as (-> & _ & _). by rewrite truthy_slot_str. }
  rewrite (try_primary_str N st w2 N (proj1 Hh2)), String.eqb_refl in E2.
  split; [reflexivity|]. split; [exact D1|].
  split; [|split; [|split]].
  - rewrite <- D2.
    rewrite E2. destruct (import_module N) as [m|e]; cbn [Res_map fst snd]; [done|].
    destruct (caught_by _ e); [|done].
    apply same_store_deref.
    pose proof (handle_failure_same_store N st (log (EvImport N) w2)) as S.
    destruct S as (Hh & Hrest). repeat split; try tauto; by rewrite Hh.
  - apply getattr_outcome_ext.
    + intros ->. apply Hn. unfold reserved. auto.
    + intros ->. apply Hn. unfold reserved. auto.
    + fold st. change (State_main st (store p _ w1)) with (State_main st w1).
      rewrite Ep, deref_store_eq, D1. reflexivity.
    + fold st. change (State_fallback st (store p _ w1)) with (State_fallback st w1).
      rewrite deref_store. case_decide as Hal; [|done].
      rewrite <- Hal, D1. reflexivity.
  - rewrite E2. destruct (import_module N) as [m|e]; cbn [Res_map fst snd].
    + exists []. by rewrite loader_calls_log_import, Hc2.
    + destruct (caught_by _ e).
      * destruct (handle_failure_calls N st (log (EvImport N) w2)) as (rest & Hr & _).
        exists rest. by rewrite Hr, loader_calls_log_import, Hc2, <- app_assoc.
      * exists []. cbn [fst]. by rewrite loader_calls_log_import, Hc2.
  - intros m Hm. rewrite E2, Hm. cbn [Res_map fst snd].
    by rewrite loader_calls_log_import, Hc2.
Qed.

End ResolverClaims.

(** ** Scopes *)

Lemma wf_initial : wf initial_world.
Proof.
  split; [|split]; try done.
  intros l [-> | [-> | [-> | ->]]]; vm_compute; lia.
Qed.

Lemma Import_enter_eq h w :
  Import_enter h w =
  (let w1 := (Sentinel_copy (live_main w) w).2 in
   let w2 := (Sentinel_copy (live_fallback w) w1).2 in
   let w5 := set_future (live_main w) false
               (set_empty (live_main w) false
                  (set_value (live_main w) (VStr (main h)) w2)) in
   set_future (live_fallback w) false
     (set_empty (live_fallback w) false
        (set_value (live_fallback w) (VStr (fallback h)) w5)),
   mkImport (main h) (fallback h)
            (Some (mkState (Some (next w)) (Some (S (next w))) None))).
Proof. reflexivity. Qed.

Lemma Import_exit_eq h exc w old :
  _old_state h = Some old ->
  Import_exit h exc w =
  (let w1 := (Sentinel_copy (State_main old w) w).2 in
   let w2 := set_state (mkState (Some (next w)) (inst_fallback (state w))
                                (inst_raise_exc (state w))) w1 in
   let w3 := (Sentinel_copy (State_fallback old w) w2).2 in
   set_state (mkState (Some (next w)) (Some (S (next w)))
                      (inst_raise_exc (state w))) w3,
   Ret tt).
Proof. intros E. unfold Import_exit. rewrite E. reflexivity. Qed.

(** What [enter] does to the store. *)
Lemma deref_Import_enter l h w :
  wf w ->
  deref l (Import_enter h w).1 =
  if decide (l = live_fallback w) then mkSentinel (VStr (fallback h)) false false
  else if decide (l = live_main w) then mkSentinel (VStr (main h)) false false
  else if decide (l = next w) then deref (live_main w) w
  else if decide (l = S (next w)) then deref (live_fallback w) w
  else deref l w.
Proof.
  intros (Hr & Hd & _).
  assert (live_main w < next w) by (apply Hr; unfold root; auto).
  assert (live_fallback w < next w) by (apply Hr; unfold root; auto).
  rewrite Import_enter_eq. cbv zeta. cbn [fst].
  rewrite !deref_assign3, !deref_Sentinel_copy, Sentinel_copy_next.
  repeat case_decide; try lia; try congruence.
Qed.

Lemma Import_enter_next h w : next (Import_enter h w).1 = S (S (next w)).
Proof. reflexivity. Qed.

Lemma Import_enter_state h w : state (Import_enter h w).1 = state w.
Proof. reflexivity. Qed.

Lemma Import_enter_handle h w :
  (Import_enter h w).2 =
  mkImport (main h) (fallback h) (Some (mkState (Some (next w)) (Some (S (next w))) None)).
Proof. reflexivity. Qed.

(** What [exit] does to the store: two new sentinels, nothing else. *)
Lemma deref_Import_exit l h exc w old :
  _old_state h = Some old ->
  State_main old w < next w ->
  State_fallback old w < next w ->
  deref l (Import_exit h exc w).1 =
  if decide (l = next w) then deref (State_main old w) w
  else if decide (l = S (next w)) then deref (State_fallback old w) w
  else deref l w.
Proof.
  intros E Hm Hf. rewrite (Import_exit_eq _ _ _ _ E). cbv zeta. cbn [fst].
  rewrite deref_set_state, deref_Sentinel_copy.
  change (next (set_state _ _)) with (S (next w)).
  change (State_fallback old (set_state _ _)) with (State_fallback old w).
  rewrite !deref_set_state, !deref_Sentinel_copy.
  repeat case_decide; try lia; try congruence.
Qed.

Lemma deref_Import_exit_old l h exc w :
  l < next w -> deref l (Import_exit h exc w).1 = deref l w.
Proof.
  intros Hl. destruct (_old_state h) as [old|] eqn:E.
  - rewrite (Import_exit_eq _ _ _ _ E). cbv zeta. cbn [fst].
    rewrite deref_set_state, deref_Sentinel_copy.
    change (next (set_state _ _)) with (S (next w)).
    rewrite !deref_set_state, !deref_Sentinel_copy.
    repeat case_decide; try lia; done.
  - unfold Import_exit. by rewrite E.
Qed.

Lemma Import_exit_state h exc w old :
  _old_state h = Some old ->
  state (Import_exit h exc w).1 =
  mkState (Some (next w)) (Some (S (next w))) (inst_raise_exc (state w)).
Proof. intros E. by rewrite (Import_exit_eq _ _ _ _ E). Qed.

Lemma Import_exit_next h exc w old :
  _old_state h = Some old -> next (Import_exit h exc w).1 = S (S (next w)).
Proof. intros E. by rewrite (Import_exit_eq _ _ _ _ E). Qed.

Lemma Import_exit_cls h exc w :
  cls_main (Import_exit h exc w).1 = cls_main w /\
  cls_fallback (Import_exit h exc w).1 = cls_fallback w /\
  cls_raise_exc (Import_exit h exc w).1 = cls_raise_exc w.
Proof.
  destruct (_old_state h) as [old|] eqn:E.
  - by rewrite (Import_exit_eq _ _ _ _ E).
  - unfold Import_exit. by rewrite E.
Qed.

Lemma Import_exit_unentered h exc w :
  _old_state h = None ->
  Import_exit h exc w =
  (w, Raise (Exc AttributeError "'NoneType' object has no attribute 'main'")).
Proof. intros E. unfold Import_exit. by rewrite E. Qed.

Section Scopes.
Context {host : Host}.

Lemma frame_step_inv a b w w' :
  wf w -> root a w -> root b w -> frame a b w w' -> step_inv w w'.
Proof.
  intros (Hr & Hd & Hc) Ha Hb [Hn Hs Hcm Hcf _ Hh].
  assert (forall l, root l w' <-> root l w) as Hroot.
  { intros l. unfold root, live_main, live_fallback, State_main, State_fallback.
    by rewrite Hs, Hcm, Hcf. }
  split; [|split].
  - split; [|split].
    + intros l Hl%Hroot. rewrite Hn. by apply Hr.
    + unfold live_main, live_fallback, State_main, State_fallback in *.
      by rewrite Hs, Hcm, Hcf.
    + by rewrite Hcm, Hcf.
  - by rewrite Hn.
  - intros l (Hl & Hnr). split; [split|].
    + by rewrite Hn.
    + by rewrite Hroot.
    + apply Hh; intros ->; by apply Hnr.
Qed.

Lemma api_step_inv w w' : wf w -> api_step w w' -> step_inv w w'.
Proof.
  intros Hwf Hstep. pose proof Hwf as (Hr & Hd & Hc).
  destruct Hstep as [h name w | name w | h w | p f raises w | h w | h exc w].
  - (* lookup through a handle *)
    eapply frame_step_inv; [done| | |apply (frame_getattr name (Some (state w)) w)];
      unfold root; auto.
  - (* module-level lookup *)
    eapply frame_step_inv; [done| | |apply (frame_getattr name None w)];
      unfold root; auto.
  - (* reset_state *)
    eapply frame_step_inv; [done| | |apply (frame_State_reset (state w) w)];
      unfold root; auto.
  - (* construction *)
    unfold Import_init. destruct raises; cbn [negb fst].
    + split; [done|]. split; [done|]. by intros l Hl.
    + split; [|split]; [exact Hwf|done|by intros l Hl].
  - (* enter *)
    split; [|split].
    + split; [|split]; [|exact Hd|exact Hc].
      intros l Hl. rewrite Import_enter_next.
      assert (l < next w) by (by apply Hr). lia.
    + rewrite Import_enter_next. lia.
    + intros l (Hl & Hnr). split; [split|].
      * rewrite Import_enter_next. lia.
      * exact Hnr.
      * rewrite deref_Import_enter by done.
        repeat case_decide; subst; try lia; try done;
          exfalso; apply Hnr; unfold root; auto.
  - (* exit *)
    destruct (_old_state h) as [old|] eqn:E.
    + destruct (Import_exit_cls h exc w) as (Ecm & Ecf & _).
      assert (live_main (Import_exit h exc w).1 = next w) as Em.
      { unfold live_main. by rewrite (Import_exit_state _ _ _ _ E). }
      assert (live_fallback (Import_exit h exc w).1 = S (next w)) as Ef.
      { unfold live_fallback. by rewrite (Import_exit_state _ _ _ _ E). }
      assert (cls_main w < next w) by (apply Hr; unfold root; auto).
      assert (cls_fallback w < next w) by (apply Hr; unfold root; auto).
      split; [|split].
      * split; [|split].
        -- intros l Hl. rewrite (Import_exit_next _ _ _ _ E).
           unfold root in Hl. rewrite Em, Ef, Ecm, Ecf in Hl. lia.
        -- rewrite Em, Ef. lia.
        -- by rewrite Ecm, Ecf.
      * rewrite (Import_exit_next _ _ _ _ E). lia.
      * intros l (Hl & Hnr). split; [split|].
        -- rewrite (Import_exit_next _ _ _ _ E). lia.
        -- unfold root. rewrite Em, Ef, Ecm, Ecf.
           intros [-> | [-> | [-> | ->]]]; try lia; apply Hnr; unfold root; auto.
        -- by apply deref_Import_exit_old.
    + rewrite Import_exit_unentered by done. cbn [fst].
      split; [done|]. split; [done|]. by intros l Hl.
Qed.

Lemma step_inv_refl w : wf w -> step_inv w w.
Proof. intros. split; [done|]. split; [done|]. by intros l Hl. Qed.

Lemma step_inv_trans w1 w2 w3 : step_inv w1 w2 -> step_inv w2 w3 -> step_inv w1 w3.
Proof.
  intros (_ & Hn12 & Hp12) (Hwf3 & Hn23 & Hp23).
  split; [done|]. split; [lia|].
  intros l Hl. destruct (Hp12 l Hl) as (Hl2 & E12).
  destruct (Hp23 l Hl2) as (Hl3 & E23). split; [done|]. by rewrite E23.
Qed.

(** Any number of steps keeps the world well formed and keeps every
    unreachable sentinel unreachable and unchanged. *)
Lemma api_steps_inv w w' : wf w -> rtc api_step w w' -> step_inv w w'.
Proof.
  intros Hwf Hsteps. induction Hsteps as [w | w w1 w2 Hstep Hsteps IH].
  - by apply step_inv_refl.
  - pose proof (api_step_inv _ _ Hwf Hstep) as H1.
    eapply step_inv_trans; [exact H1|]. apply IH. by destruct H1.
Qed.

(** Every world the library can reach from a fresh process is well
    formed. *)
Lemma wf_reachable w : rtc api_step initial_world w -> wf w.
Proof. intros Hs. by destruct (api_steps_inv _ _ wf_initial Hs). Qed.

(** One step never sets the instance flag to anything but [False], and
    never touches the class-level one. *)
Lemma api_step_policy w w' :
  api_step w w' ->
  cls_raise_exc w' = cls_raise_exc w /\
  (inst_raise_exc (state w') = inst_raise_exc (state w) \/
   inst_raise_exc (state w') = Some false).
Proof.
  intros Hstep.
  destruct Hstep as [h name w | name w | h w | p f raises w | h w | h exc w].
  - destruct (frame_getattr name (Some (state w)) w) as [_ Hs _ _ Hc _].
    unfold Import_get_entity. rewrite Hs, Hc. auto.
  - destruct (frame_getattr name None w) as [_ Hs _ _ Hc _].
    unfold module_getattr. rewrite Hs, Hc. auto.
  - destruct (frame_State_reset (state w) w) as [_ Hs _ _ Hc _].
    unfold Import_reset_state. rewrite Hs, Hc. auto.
  - unfold Import_init. destruct raises; cbn [negb fst]; auto.
  - rewrite Import_enter_state. auto.
  - destruct (Import_exit_cls h exc w) as (_ & _ & ->). split; [done|].
    destruct (_old_state h) as [old|] eqn:E.
    + rewrite (Import_exit_state _ _ _ _ E). auto.
    + rewrite Import_exit_unentered by done. auto.
Qed.

Lemma api_steps_policy w w' :
  rtc api_step w w' ->
  inst_raise_exc (state w) = Some false ->
  inst_raise_exc (state w') = Some false.
Proof.
  intros Hsteps. induction Hsteps as [w | w w1 w2 Hstep Hsteps IH]; [done|].
  intros Hw. apply IH.
  destruct (api_step_policy _ _ Hstep) as (_ & [-> | ->]); done.
Qed.

(** As long as no [exit] has rebound [state.main] and [state.fallback], the
    [_State()] of the module-level entry point reaches the same two
    sentinels as [state], and the two kinds of lookup coincide. *)
Lemma module_lookup_agrees_while_unbound h name w :
  inst_main (state w) = None ->
  inst_fallback (state w) = None ->
  module_getattr name w = Import_get_entity h name w.
Proof.
  intros Hm Hf. unfold module_getattr, Import_get_entity.
  destruct (state w) as [im ifb ir]. cbn [inst_main inst_fallback] in *. subst.
  reflexivity.
Qed.

End Scopes.

Section ScopeClaims.
Context {host : Host}.

(** C10 (the policy flag is sticky).  [exit] leaves the flag read through
    [state] as it was, and [Import(..., raises=True)] changes nothing at
    all.  [Import(..., raises=False)] sets the flag to [False] on [state]
    at construction, and after any further use of the public surface
    (entering and leaving that scope and any later ones, lookups, resets)
    it is still [False], also across a following [exit]. *)
Theorem policy_flag_survives_exit (p f : string) (w w' w0 : World)
    (h : Import) (exc : option Exn) :
  rtc api_step (Import_init p f false w).1 w' ->
  live_raise_exc (Import_exit h exc w0).1 = live_raise_exc w0 /\
  (Import_init p f true w0).1 = w0 /\
  live_raise_exc (Import_init p f false w).1 = false /\
  live_raise_exc w' = false /\
  live_raise_exc (Import_exit h exc w').1 = false.
Proof.
  intros Hsteps.
  assert (forall v, live_raise_exc (Import_exit h exc v).1 = live_raise_exc v) as Hexit.
  { intros v. unfold live_raise_exc, State_raise_exc.
    destruct (Import_exit_cls h exc v) as (_ & _ & ->).
    destruct (_old_state h) as [old|] eqn:E.
    - by rewrite (Import_exit_state _ _ _ _ E).
    - by rewrite Import_exit_unentered. }
  assert (live_raise_exc w' = false) as Hw'.
  { unfold live_raise_exc, State_raise_exc.
    by rewrite (api_steps_policy _ _ Hsteps). }
  split; [apply Hexit|]. split; [reflexivity|]. split; [reflexivity|].
  split; [exact Hw'|]. by rewrite Hexit.
Qed.

End ScopeClaims.

(** ** Concrete runs on the table-driven host *)

Lemma not_reserved_demo (name : string) :
  String.eqb name "_reset" = false ->
  String.eqb name "_main" = false ->
  String.eqb name "_fallback" = false ->
  ¬ reserved name.
Proof.
  intros H1 H2 H3 [-> | [-> | ->]]; discriminate.
Qed.

(** C3, counterexample.  With [datetime] as primary, which defines a symbol
    called [datetime], looking up [datetime] returns the module, not the
    symbol: the self-reference test comes first. *)
Lemma primary_symbol_counterexample :
  let w := (open_scope "datetime" "json" true initial_world).1 in
  let arg := Some (state w) in
  holds_name (deref (State_main (state_of arg) w) w) "datetime" /\
  import_module (Host := demo_host) "datetime" = Ret (TModule "datetime") /\
  getattr_module (Host := demo_host) (TModule "datetime") "datetime"
    = Ret (TAttr "datetime" "datetime") /\
  (__getattr__ (host := demo_host) "datetime" arg w).2 = Ret (EObj (host := demo_host) (TModule "datetime")) /\
  ¬ primary_symbol_always_returned demo_host.
Proof.
  cbv zeta.
  assert (holds_name
            (deref (State_main (state_of (Some (state (open_scope "datetime" "json" true
                                                         initial_world).1)))
                               (open_scope "datetime" "json" true initial_world).1)
                   (open_scope "datetime" "json" true initial_world).1) "datetime") as Hh.
  { split; [|split]; [vm_compute; reflexivity | discriminate | vm_compute; reflexivity]. }
  assert ((__getattr__ (host := demo_host) "datetime"
             (Some (state (open_scope "datetime" "json" true initial_world).1))
             (open_scope "datetime" "json" true initial_world).1).2
          = Ret (EObj (host := demo_host) (TModule "datetime"))) as Hr by (vm_compute; reflexivity).
  split; [exact Hh|]. split; [vm_compute; reflexivity|].
  split; [vm_compute; reflexivity|]. split; [exact Hr|].
  intros Hall.
  specialize (Hall "datetime" _ _ "datetime" (TModule "datetime")
                   (TAttr "datetime" "datetime")
                   (not_reserved_demo "datetime" eq_refl eq_refl eq_refl)
                   Hh eq_refl eq_refl).
  rewrite Hr in Hall. discriminate.
Qed.

(** C1, the code at the failing input.  Both namespaces load and neither
    defines [Missing]; the scope is opened with [raises=True]; the lookup
    returns the [NotFound] marker instead of raising. *)
Theorem raising_scope_returns_NotFound :
  import_module (Host := demo_host) "typing" = Ret (TModule "typing") /\
  import_module (Host := demo_host) "typing_extensions" = Ret (TModule "typing_extensions") /\
  exn_class <$> (match getattr_module (Host := demo_host) (TModule "typing") "Missing" with
                 | Raise e => Some e | Ret _ => None end) = Some AttributeError /\
  exn_class <$> (match getattr_module (Host := demo_host) (TModule "typing_extensions")
                         "Missing" with
                 | Raise e => Some e | Ret _ => None end) = Some AttributeError /\
  (with_Import "typing" "typing_extensions" true
     (fun h => Import_get_entity (host := demo_host) h "Missing") initial_world).2
  = Ret ENotFound.
Proof. repeat split; vm_compute; reflexivity. Qed.

(** C2, the code at the failing input.  The scope is opened with
    [raises=False]; the primary loads and lacks [Missing], the fallback
    does not load; the loader's exception leaves the lookup. *)
Theorem silent_scope_raises_on_unloadable_fallback :
  live_raise_exc (open_scope "typing" "not_installed" false initial_world).1 = false /\
  (with_Import "typing" "not_installed" false
     (fun h => Import_get_entity (host := demo_host) h "Missing") initial_world).2
  = Raise (Exc ModuleNotFoundError "No module named 'not_installed'").
Proof. split; vm_compute; reflexivity. Qed.

(** C5, the code at the failing input.  On a fresh state the flag is
    [False]; with [typing] assigned as primary through [_main] and no
    fallback, a lookup that fails returns the [NotFound] marker. *)
Theorem fresh_state_policy_is_silent :
  State_raise_exc State_new initial_world = false /\
  live_raise_exc initial_world = false /\
  let w1 := (module_getattr (host := demo_host) "_main" initial_world).1 in
  let w2 := (module_getattr (host := demo_host) "typing" w1).1 in
  (module_getattr (host := demo_host) "Missing" w2).2 = Ret ENotFound.
Proof. repeat split; vm_compute; reflexivity. Qed.

(** C6, the code at the failing input.  A first scope over [typing] has
    been closed and a second one over [json] is open.  A lookup through the
    handle is answered from [json]; the module-level lookup of the same
    name asks [typing] and [typing_extensions], the closed scope's
    namespaces. *)
Theorem module_lookup_ignores_second_scope :
  let w1 := pass_scope "typing" "typing_extensions" true initial_world in
  let w2 := (open_scope "json" "datetime" true w1).1 in
  let h := (open_scope "json" "datetime" true w1).2 in
  (Import_get_entity (host := demo_host) h "loads" w2).2 = Ret (EObj (host := demo_host) (TAttr "json" "loads")) /\
  (module_getattr (host := demo_host) "loads" w2).2 = Ret ENotFound /\
  loader_calls (module_getattr (host := demo_host) "loads" w2).1
    = ["typing"; "typing_extensions"] /\
  (module_getattr (host := demo_host) "Doc" w2).2
    = Ret (EObj (host := demo_host) (TAttr "typing_extensions" "Doc")).
Proof. repeat split; vm_compute; reflexivity. Qed.

(** C7, the code at the failing input.  In a fresh process the
    module-level lookup returns the [_Future] marker.  After a scope over
    [typing] has been opened and closed it does not: the class-level
    sentinels still name the closed scope's namespaces, and the lookup is
    answered from them.  The lookup through a handle does return
    [_Future]. *)
Theorem module_lookup_after_scope_still_configured :
  let w1 := pass_scope "typing" "typing_extensions" true initial_world in
  (module_getattr (host := demo_host) "Doc" initial_world).2 = Ret EFuture /\
  (module_getattr (host := demo_host) "Doc" w1).2
    = Ret (EObj (host := demo_host) (TAttr "typing_extensions" "Doc")) /\
  deref (cls_main w1) w1 = mkSentinel (VStr "typing") false false /\
  deref (live_main w1) w1 = Sentinel_new /\
  (Import_get_entity (host := demo_host) (mkImport "typing" "typing_extensions" None)
     "Doc" w1).2 = Ret EFuture.
Proof. repeat split; vm_compute; reflexivity. Qed.

(** C4, the code at the failing input.  Scope B over [json] is opened and
    closed inside scope A over [typing].  After B has closed, the sentinels
    reached through [state] hold A's names again and a lookup through A's
    handle is answered from A's namespaces (neither defines [loads]); the
    class-level sentinels still hold B's names, and the module-level
    lookup of [loads] is answered from B's namespace [json]. *)
Theorem module_lookup_after_inner_scope_sees_inner_names :
  let wA := (open_scope "typing" "typing_extensions" true initial_world).1 in
  let hA := (open_scope "typing" "typing_extensions" true initial_world).2 in
  let w := pass_scope "json" "datetime" true wA in
  deref (live_main w) w = mkSentinel (VStr "typing") false false /\
  deref (live_fallback w) w = mkSentinel (VStr "typing_extensions") false false /\
  deref (cls_main w) w = mkSentinel (VStr "json") false false /\
  deref (cls_fallback w) w = mkSentinel (VStr "datetime") false false /\
  (Import_get_entity (host := demo_host) hA "loads" w).2 = Ret ENotFound /\
  (module_getattr (host := demo_host) "loads" w).2
    = Ret (EObj (host := demo_host) (TAttr "json" "loads")) /\
  (with_Import "typing" "typing_extensions" true
     (fun _ v => module_getattr (host := demo_host) "loads"
                   (pass_scope "json" "datetime" true v))
     initial_world).2
    = Ret (EObj (host := demo_host) (TAttr "json" "loads")).
Proof. repeat split; vm_compute; reflexivity. Qed.

(** ** The general theorems at concrete inputs *)

Lemma typing_scope_primary :
  holds_name (deref (State_main (state_of (Some (state typing_scope))) typing_scope)
                    typing_scope) "typing".
Proof. split; [|split]; [vm_compute; reflexivity | discriminate | vm_compute; reflexivity]. Qed.

Lemma typing_scope_fallback :
  holds_name (deref (State_fallback (state_of (Some (state typing_scope))) typing_scope)
                    typing_scope) "typing_extensions".
Proof. split; [|split]; [vm_compute; reflexivity | discriminate | vm_compute; reflexivity]. Qed.

Lemma typing_lacks (name : string) :
  getattr_module (Host := demo_host) (TModule "typing") name
    = Raise (Exc AttributeError
               ("module 'typing' has no attribute '" ++ name ++ "'")%string) ->
  name ≠ "typing" ->
  attempt_fails (host := demo_host) "typing" name.
Proof.
  intros Hg Hne. eexists. split; [|right; split; [exact Hne|]].
  2: { exists (TModule "typing"). split; [reflexivity|exact Hg]. }
  reflexivity.
Qed.

(** [Protocol] comes from [typing]; [Doc], which [typing] lacks, comes from
    [typing_extensions] after exactly two loader calls. *)
Lemma primary_first_single_fallback_witness :
  (__getattr__ (host := demo_host) "Protocol" (Some (state typing_scope)) typing_scope).2
    = Ret (EObj (host := demo_host) (TAttr "typing" "Protocol")) /\
  (__getattr__ (host := demo_host) "Doc" (Some (state typing_scope)) typing_scope).2
    = Ret (EObj (host := demo_host) (TAttr "typing_extensions" "Doc")) /\
  loader_calls (__getattr__ (host := demo_host) "Doc" (Some (state typing_scope))
                  typing_scope).1
    = loader_calls typing_scope ++ ["typing"; "typing_extensions"].
Proof.
  split.
  - destruct (primary_first_single_fallback (host := demo_host) "Protocol"
                (Some (state typing_scope)) typing_scope "typing"
                (not_reserved_demo "Protocol" eq_refl eq_refl eq_refl)
                typing_scope_primary ltac:(discriminate)) as (Hprim & _ & _).
    apply (Hprim (TModule "typing") (TAttr "typing" "Protocol")); reflexivity.
  - destruct (primary_first_single_fallback (host := demo_host) "Doc"
                (Some (state typing_scope)) typing_scope "typing"
                (not_reserved_demo "Doc" eq_refl eq_refl eq_refl)
                typing_scope_primary ltac:(discriminate)) as (_ & Hfb & _).
    apply (Hfb "typing_extensions" (TModule "typing_extensions")
               (TAttr "typing_extensions" "Doc")).
    + apply typing_lacks; [reflexivity | discriminate].
    + exact typing_scope_fallback.
    + vm_compute; reflexivity.
    + discriminate.
    + reflexivity.
    + reflexivity.
Defined.

(** Inside the [typing] scope each of the two namespace names resolves to
    its own module. *)
Lemma self_reference_returns_namespace_witness :
  (__getattr__ (host := demo_host) "typing" (Some (state typing_scope)) typing_scope).2
    = Ret (EObj (host := demo_host) (TModule "typing")) /\
  (__getattr__ (host := demo_host) "typing_extensions" (Some (state typing_scope))
     typing_scope).2
    = Ret (EObj (host := demo_host) (TModule "typing_extensions")).
Proof.
  split.
  - destruct (self_reference_returns_namespace (host := demo_host) "typing"
                (Some (state typing_scope)) typing_scope "typing" (TModule "typing")
                (not_reserved_demo "typing" eq_refl eq_refl eq_refl)
                typing_scope_primary eq_refl) as (Hself & _).
    apply Hself. reflexivity.
  - destruct (self_reference_returns_namespace (host := demo_host) "typing_extensions"
                (Some (state typing_scope)) typing_scope "typing"
                (TModule "typing_extensions")
                (not_reserved_demo "typing_extensions" eq_refl eq_refl eq_refl)
                typing_scope_primary eq_refl) as (_ & Hfb).
    apply Hfb.
    + apply typing_lacks; [reflexivity | discriminate].
    + exact typing_scope_fallback.
    + vm_compute; reflexivity.
Defined.

(** [safelib._main] then [safelib.typing] in a fresh process: the second
    lookup returns the module [typing]. *)
Lemma deferred_assignment_witness :
  let w1 := (__getattr__ (host := demo_host) "_main" None initial_world).1 in
  deref (cls_main initial_world) w1 = mkSentinel VFuture false true /\
  deref (cls_main initial_world) (__getattr__ (host := demo_host) "typing" None w1).1
    = mkSentinel (VStr "typing") false false /\
  (__getattr__ (host := demo_host) "typing" None w1).2
    = Ret (EObj (host := demo_host) (TModule "typing")).
Proof.
  destruct (deferred_assignment (host := demo_host) "typing" None initial_world
              (not_reserved_demo "typing" eq_refl eq_refl eq_refl)
              ltac:(discriminate)) as (_ & Hmark & Hset & _ & _ & Himp).
  cbv zeta. split; [exact Hmark|]. split; [exact Hset|].
  apply (Himp (TModule "typing")). reflexivity.
Defined.

(** [Import('typing', 'typing_extensions', raises=False)] entered and left:
    the flag read through [state] is still [False]. *)
Lemma policy_flag_survives_exit_witness :
  let w0 := (Import_init "typing" "typing_extensions" false initial_world).1 in
  let h0 := (Import_init "typing" "typing_extensions" false initial_world).2 in
  let w1 := (Import_enter h0 w0).1 in
  let h1 := (Import_enter h0 w0).2 in
  live_raise_exc (Import_exit h1 None w1).1 = false.
Proof.
  cbv zeta.
  set (w0 := (Import_init "typing" "typing_extensions" false initial_world).1).
  set (h0 := (Import_init "typing" "typing_extensions" false initial_world).2).
  destruct (policy_flag_survives_exit (host := demo_host) "typing" "typing_extensions"
              initial_world (Import_exit (Import_enter h0 w0).2 None (Import_enter h0 w0).1).1
              initial_world h0 None
              (rtc_l _ _ _ _ (step_enter h0 w0)
                 (rtc_once _ _ (step_exit (Import_enter h0 w0).2 None
                                          (Import_enter h0 w0).1))))
    as (_ & _ & _ & Hflag & _).
  exact Hflag.
Defined.

(** * Further properties of the resolver *)

Section ResolverExtras.
Context {host : Host}.

Lemma empty_consumed name s : empty (consumed name s) = empty s.
Proof. unfold consumed. by destruct (future s). Qed.

(** The world after the two deferral steps, for a name that is not a
    control name. *)
Lemma getattr_ordinary_unassigned name arg w :
  ¬ reserved name ->
  truthy_slot (value (consumed name (deref (State_main (state_of arg) w) w))) = false ->
  __getattr__ name arg w =
  (consume_fallback name (state_of arg) (consume_main name (state_of arg) w), Ret EFuture).
Proof.
  intros Hn Ht. rewrite getattr_ordinary by done. cbv zeta.
  rewrite (frame_State_main _ _ _ _ _ (frame_consume_both name (state_of arg) w)).
  by rewrite deref_consume_both_main, Ht.
Qed.

(** X3.  With no primary assigned (its value is [None] or the empty
    string, no deferral pending) an ordinary lookup returns the [_Future]
    marker and the loader is not asked, whatever the fallback sentinel
    holds. *)
Theorem unassigned_primary_returns_Future (name : string) (arg : option State)
    (w : World) :
  ¬ reserved name ->
  future (deref (State_main (state_of arg) w) w) = false ->
  truthy_slot (value (deref (State_main (state_of arg) w) w)) = false ->
  (__getattr__ name arg w).2 = Ret EFuture /\
  loader_calls (__getattr__ name arg w).1 = loader_calls w.
Proof.
  intros Hn Hf Ht.
  rewrite getattr_ordinary_unassigned; [|done|by rewrite consumed_settled].
  split; [done|]. cbn [fst].
  by rewrite loader_calls_consume_fallback, loader_calls_consume_main.
Qed.

(** X2.  Looking up [_reset] puts both sentinels of the state back to
    unassigned and returns [None] (the branch has no [return]); it rebinds
    nothing and asks the loader nothing.  An ordinary lookup right after
    it returns the [_Future] marker, again without a loader call. *)
Theorem reset_command_unconfigures (name : string) (arg : option State) (w : World) :
  ¬ reserved name ->
  let st := state_of arg in
  let w1 := (__getattr__ "_reset" arg w).1 in
  (__getattr__ "_reset" arg w).2 = Ret ENone /\
  deref (State_main st w) w1 = Sentinel_new /\
  deref (State_fallback st w) w1 = Sentinel_new /\
  state w1 = state w /\ events w1 = events w /\
  (__getattr__ name arg w1).2 = Ret EFuture /\
  loader_calls (__getattr__ name arg w1).1 = loader_calls w.
Proof.
  intros Hn. cbv zeta. set (st := state_of arg).
  assert ((__getattr__ "_reset" arg w) = (State_reset st w, Ret ENone)) as E
    by reflexivity.
  rewrite E. cbn [fst snd].
  assert (deref (State_main st w) (State_reset st w) = Sentinel_new) as Dm.
  { unfold State_reset. cbv zeta. rewrite !deref_Sentinel_reset.
    repeat case_decide; done. }
  assert (deref (State_fallback st w) (State_reset st w) = Sentinel_new) as Df.
  { unfold State_reset. cbv zeta. rewrite !deref_Sentinel_reset.
    change (State_fallback st (Sentinel_reset _ w)) with (State_fallback st w).
    by rewrite decide_True. }
  split; [done|]. split; [exact Dm|]. split; [exact Df|].
  split; [reflexivity|]. split; [reflexivity|].
  rewrite getattr_ordinary_unassigned; [|exact Hn|].
  - split; [reflexivity|]. cbn [fst].
    by rewrite loader_calls_consume_fallback, loader_calls_consume_main.
  - fold st. change (State_main st (State_reset st w)) with (State_main st w).
    by rewrite Dm.
Qed.

(** X4.  An exception of the primary attempt that the [except] clause does
    not list (anything but [ImportError], [ModuleNotFoundError] and
    [AttributeError]) leaves the lookup as it is, and the fallback is not
    consulted. *)
Theorem unlisted_exception_propagates (name : string) (arg : option State)
    (w : World) (P : string) (e : Exn) :
  ¬ reserved name ->
  holds_name (deref (State_main (state_of arg) w) w) P ->
  caught_by [ImportError; AttributeError; ModuleNotFoundError] e = false ->
  (import_module P = Raise e \/
   (name ≠ P /\ exists m, import_module P = Ret m /\ getattr_module m name = Raise e)) ->
  (__getattr__ name arg w).2 = Raise e /\
  loader_calls (__getattr__ name arg w).1 = loader_calls w ++ [P].
Proof.
  intros Hn Hh Hc Hfail.
  destruct (getattr_primary_holds name arg w P Hn Hh) as (Hv2 & Hc2 & ->).
  rewrite (try_primary_str name _ _ P Hv2).
  assert ((if String.eqb name P then Res_map EObj (import_module P)
           else match import_module P with
                | Ret m => Res_map EObj (getattr_module m name)
                | Raise e0 => Raise e0
                end) = Raise e) as ->.
  { destruct Hfail as [-> | (Hne & m & -> & ->)].
    - by destruct (String.eqb name P).
    - apply String.eqb_neq in Hne. by rewrite Hne. }
  rewrite Hc. cbn [fst snd]. by rewrite loader_calls_log_import, Hc2.
Qed.

(** X5.  When the attempt on the primary fails and no fallback has been
    assigned, the lookup returns the [NotFound] marker after that single
    loader call, whatever the policy flag is. *)
Theorem failed_primary_without_fallback (name : string) (arg : option State)
    (w : World) (P : string) :
  ¬ reserved name ->
  holds_name (deref (State_main (state_of arg) w) w) P ->
  attempt_fails P name ->
  empty (deref (State_fallback (state_of arg) w) w) = true ->
  (__getattr__ name arg w).2 = Ret ENotFound /\
  loader_calls (__getattr__ name arg w).1 = loader_calls w ++ [P].
Proof.
  intros Hn Hh (e & Hc & Hfail) He.
  destruct (getattr_primary_holds name arg w P Hn Hh) as (Hv2 & Hc2 & ->).
  set (st := state_of arg) in *.
  set (w2 := consume_fallback name st (consume_main name st w)) in *.
  rewrite (try_primary_str name _ _ P Hv2).
  assert ((if String.eqb name P then Res_map EObj (import_module P)
           else match import_module P with
                | Ret m => Res_map EObj (getattr_module m name)
                | Raise e0 => Raise e0
                end) = Raise e) as ->.
  { destruct Hfail as [-> | (Hne & m & -> & ->)].
    - by destruct (String.eqb name P).
    - apply String.eqb_neq in Hne. by rewrite Hne. }
  rewrite Hc, handle_failure_empty.
  - cbn [fst snd]. by rewrite loader_calls_log_import, Hc2.
  - change (empty (deref (State_fallback st w2) w2) = true).
    rewrite (frame_State_fallback _ _ _ _ _ (frame_consume_both name st w)).
    unfold w2. by rewrite deref_consume_both_fallback, empty_consumed.
Qed.

End ResolverExtras.

Section ResolverExtras2.
Context {host : Host}.

Lemma same_store_trans w1 w2 w3 : same_store w1 w2 -> same_store w2 w3 -> same_store w1 w3.
Proof.
  intros (? & ? & ? & ? & ? & ?) (? & ? & ? & ? & ? & ?).
  repeat split; congruence.
Qed.

(** After the deferral steps an ordinary lookup only reads the store. *)
Lemma getattr_ordinary_store name arg w :
  ¬ reserved name ->
  same_store (consume_fallback name (state_of arg) (consume_main name (state_of arg) w))
             (__getattr__ name arg w).1.
Proof.
  intros Hn. rewrite getattr_ordinary by done. cbv zeta.
  set (st := state_of arg).
  set (w2 := consume_fallback name st (consume_main name st w)).
  destruct (truthy_slot _); [|apply same_store_refl].
  pose proof (try_primary_same_store name st w2) as S3.
  destruct (try_primary name st w2) as [w3 r]. cbn [fst] in S3.
  destruct r as [v|e]; [exact S3|].
  destruct (caught_by _ e); [|exact S3].
  eapply same_store_trans; [exact S3|apply handle_failure_same_store].
Qed.

Lemma consume_both_settled name st w :
  future (deref (State_main st w) w) = false ->
  future (deref (State_fallback st w) w) = false ->
  consume_fallback name st (consume_main name st w) = w.
Proof.
  intros Hm Hf. unfold consume_main. rewrite Hm.
  unfold consume_fallback. by rewrite Hf.
Qed.

(** X7.  When neither sentinel has a deferral pending, an ordinary lookup
    changes nothing in the store: no sentinel is written, nothing is
    allocated or rebound.  Only the log of loader calls grows. *)
Theorem settled_lookup_is_read_only (name : string) (arg : option State) (w : World) :
  ¬ reserved name ->
  future (deref (State_main (state_of arg) w) w) = false ->
  future (deref (State_fallback (state_of arg) w) w) = false ->
  same_store w (__getattr__ name arg w).1.
Proof.
  intros Hn Hm Hf.
  pose proof (getattr_ordinary_store name arg w Hn) as S.
  by rewrite consume_both_settled in S.
Qed.

(** X8.  Whatever the name, a lookup allocates no sentinel, rebinds neither
    [state] nor a class attribute, leaves the policy flag alone, and writes
    to no sentinel other than the two its state argument reaches. *)
Theorem lookup_touches_only_its_sentinels (name : string) (arg : option State)
    (w : World) :
  let w' := (__getattr__ name arg w).1 in
  next w' = next w /\ state w' = state w /\
  cls_main w' = cls_main w /\ cls_fallback w' = cls_fallback w /\
  cls_raise_exc w' = cls_raise_exc w /\
  forall l, l ≠ State_main (state_of arg) w -> l ≠ State_fallback (state_of arg) w ->
            deref l w' = deref l w.
Proof. cbv zeta. by destruct (frame_getattr name arg w). Qed.

Lemma try_primary_raise name st w e :
  (try_primary name st w).2 = Raise e -> raised_by_host e.
Proof.
  unfold try_primary. destruct (str_eq_slot _ _).
  - destruct (py_import (VStr name) w) as [w1 r] eqn:E. cbn [snd].
    destruct r; [done|]. intros [= ->]. left. exists (VStr name), w. by rewrite E.
  - destruct (py_import _ w) as [w1 r] eqn:E.
    destruct r as [m|e0]; cbn [snd].
    + destruct (getattr_module m name) eqn:G; [done|]. cbn [Res_map].
      intros [= ->]. right. by exists m, name.
    + intros [= ->]. left. eexists _, w. by rewrite E.
Qed.

Lemma handle_failure_raise name st w e :
  (handle_failure name st w).2 = Raise e -> raised_by_host e.
Proof.
  unfold handle_failure.
  destruct (negb _); [|by rewrite State_raises_falsy].
  destruct (str_eq_slot _ _).
  - destruct (py_import (VStr name) w) as [w1 r] eqn:E.
    destruct r as [m|e0]; [done|].
    destruct (caught_by _ e0); [by rewrite State_raises_falsy|].
    cbn [snd]. intros [= ->]. left. exists (VStr name), w. by rewrite E.
  - rewrite State_raises_falsy.
    destruct (py_import _ w) as [w1 r] eqn:E.
    destruct r as [m|e0]; cbn [snd].
    + unfold getattr_default. destruct (getattr_module m name) eqn:G; [done|].
      destruct (issubclass _ _); [done|].
      intros [= ->]. right. by exists m, name.
    + intros [= ->]. left. eexists _, w. by rewrite E.
Qed.

(** X6.  The resolver raises nothing of its own: an exception that leaves
    a lookup is one that a call to the loader or to [getattr] on a loaded
    module raised.  The two [raise ImportError(...)] statements are never
    reached. *)
Theorem lookup_raises_only_host_exceptions (name : string) (arg : option State)
    (w : World) (e : Exn) :
  (__getattr__ name arg w).2 = Raise e -> raised_by_host e.
Proof.
  unfold __getattr__. fold (state_of arg). set (st := state_of arg).
  destruct (String.eqb name "_reset"); [done|].
  destruct (String.eqb name "_main"); [done|].
  destruct (String.eqb name "_fallback"); [done|].
  cbv zeta. set (w2 := consume_fallback name st (consume_main name st w)).
  destruct (truthy_slot _); [|done].
  pose proof (try_primary_raise name st w2) as Hp.
  destruct (try_primary name st w2) as [w3 r]. cbn [snd] in Hp.
  destruct r as [v|e0]; [done|].
  destruct (caught_by _ e0).
  - apply handle_failure_raise.
  - cbn [snd]. intros [= ->]. by apply Hp.
Qed.

(** X9.  When the attempt on the primary fails and the attempt on the
    assigned fallback [F] fails in one of the two ways the handler
    absorbs ([F] is the looked-up name and does not load, with an
    [ImportError]; or [F] loads and lacks the symbol), the lookup returns
    the [NotFound] marker after exactly two loader calls, whatever the
    policy flag is. *)
Theorem absorbed_failures_return_NotFound (name : string) (arg : option State)
    (w : World) (P F : string) :
  ¬ reserved name ->
  holds_name (deref (State_main (state_of arg) w) w) P ->
  attempt_fails P name ->
  holds_name (deref (State_fallback (state_of arg) w) w) F ->
  empty (deref (State_fallback (state_of arg) w) w) = false ->
  ((name = F /\ exists e, import_module F = Raise e /\ caught_by [ImportError] e = true) \/
   (name ≠ F /\ exists m e, import_module F = Ret m /\ getattr_module m name = Raise e /\
                            issubclass (exn_class e) AttributeError = true)) ->
  (__getattr__ name arg w).2 = Ret ENotFound /\
  loader_calls (__getattr__ name arg w).1 = loader_calls w ++ [P; F].
Proof.
  intros Hn Hh (e & Hc & Hfail) (Hfv & HF & Hff) Hfe Hsoft.
  destruct (getattr_primary_holds name arg w P Hn Hh) as (Hv2 & Hc2 & ->).
  set (st := state_of arg) in *.
  assert (consume_fallback name st (consume_main name st w) = w) as Ew
    by (apply consume_both_settled; [by destruct Hh as (_ & _ & ?)|done]).
  rewrite Ew in *.
  rewrite (try_primary_str name _ _ P Hv2).
  assert ((if String.eqb name P then Res_map EObj (import_module P)
           else match import_module P with
                | Ret m => Res_map EObj (getattr_module m name)
                | Raise e0 => Raise e0
                end) = Raise e) as ->.
  { destruct Hfail as [-> | (Hne & m & -> & ->)].
    - by destruct (String.eqb name P).
    - apply String.eqb_neq in Hne. by rewrite Hne. }
  rewrite Hc, (handle_failure_str name st (log (EvImport P) w) F) by done.
  cbn [fst snd]. rewrite !loader_calls_log_import, <- app_assoc.
  split; [|done].
  destruct Hsoft as [(-> & e1 & -> & ->) | (Hne & m & e1 & -> & Hg & Hsub)].
  - by rewrite String.eqb_refl.
  - apply String.eqb_neq in Hne. rewrite Hne.
    unfold getattr_default. by rewrite Hg, Hsub.
Qed.

End ResolverExtras2.

Section ResolverExtras3.
Context {host : Host}.

(** X10.  The deferral idiom for the fallback: looking up [_fallback]
    leaves the fallback sentinel with [value = _Future], [empty = False],
    [future = True] and returns it; the next ordinary lookup of [N] assigns
    [N] to it.  When the primary (another object, holding [P]) fails for
    [N] in that same lookup and [N] loads, the module [N] is returned. *)
Theorem deferred_fallback_assignment (N : string) (arg : option State) (w : World) :
  ¬ reserved N ->
  let q := State_fallback (state_of arg) w in
  let w1 := (__getattr__ "_fallback" arg w).1 in
  let w2 := (__getattr__ N arg w1).1 in
  (__getattr__ "_fallback" arg w).2 = Ret (ESentinel q) /\
  deref q w1 = mkSentinel VFuture false true /\
  deref q w2 = mkSentinel (VStr N) false false /\
  (forall P m,
     State_main (state_of arg) w ≠ q ->
     holds_name (deref (State_main (state_of arg) w) w) P ->
     attempt_fails P N ->
     import_module N = Ret m ->
     (__getattr__ N arg w1).2 = Ret (EObj m) /\
     loader_calls w2 = loader_calls w1 ++ [P; N]).
Proof.
  intros Hn. cbv zeta.
  set (st := state_of arg). set (q := State_fallback st w).
  assert ((__getattr__ "_fallback" arg w).1 =
          set_future q true (set_empty q false (set_value q VFuture w))) as E1
    by reflexivity.
  set (w1 := (__getattr__ "_fallback" arg w).1) in *.
  assert (State_fallback st w1 = q) as Eq by (by rewrite E1).
  assert (State_main st w1 = State_main st w) as Ep by (by rewrite E1).
  assert (deref q w1 = mkSentinel VFuture false true) as D1.
  { rewrite E1, deref_assign3. by rewrite decide_True. }
  set (w2 := consume_fallback N st (consume_main N st w1)).
  assert (deref q w2 = mkSentinel (VStr N) false false) as D2.
  { unfold w2. rewrite <- Eq, deref_consume_both_fallback, Eq, D1. reflexivity. }
  pose proof (getattr_ordinary_store N arg w1 Hn) as S. fold st w2 in S.
  split; [reflexivity|]. split; [exact D1|].
  split; [by rewrite (same_store_deref _ _ _ S)|].
  intros P m Hne Hh (e & Hc & Hfail) Him.
  assert (holds_name (deref (State_main st w1) w1) P) as Hh1.
  { rewrite Ep, E1, deref_assign3. by rewrite decide_False. }
  destruct (getattr_primary_holds N arg w1 P Hn Hh1) as (Hv2 & Hc2 & ->).
  fold st w2 in Hv2, Hc2 |- *.
  rewrite (try_primary_str N _ _ P Hv2).
  assert ((if String.eqb N P then Res_map EObj (import_module P)
           else match import_module P with
                | Ret m0 => Res_map EObj (getattr_module m0 N)
                | Raise e0 => Raise e0
                end) = Raise e) as ->.
  { destruct Hfail as [-> | (HneP & m0 & -> & ->)].
    - by destruct (String.eqb N P).
    - apply String.eqb_neq in HneP. by rewrite HneP. }
  rewrite Hc.
  rewrite (handle_failure_str N st (log (EvImport P) w2) N).
  - rewrite String.eqb_refl, Him. cbn [fst snd].
    by rewrite !loader_calls_log_import, Hc2, <- app_assoc.
  - change (empty (deref (State_fallback st w2) w2) = false).
    rewrite (frame_State_fallback _ _ _ _ _ (frame_consume_both N st w1)), Eq.
    by rewrite D2.
  - change (value (deref (State_fallback st w2) w2) = VStr N).
    rewrite (frame_State_fallback _ _ _ _ _ (frame_consume_both N st w1)), Eq.
    by rewrite D2.
Qed.

(** The outcome of a lookup does not depend on the policy flag, nor on
    anything of the state object but the two sentinels it reaches. *)
Lemma getattr_outcome_flag_inert name st st' w w' :
  heap w' = heap w ->
  State_main st' w' = State_main st w ->
  State_fallback st' w' = State_fallback st w ->
  (__getattr__ name (Some st') w').2 = (__getattr__ name (Some st) w).2.
Proof.
  intros Hh Hm Hf.
  assert (forall l, deref l w' = deref l w) as Hd
    by (intros l; unfold deref; by rewrite Hh).
  destruct (String.eqb name "_main") eqn:E1.
  { unfold __getattr__. rewrite E1.
    destruct (String.eqb name "_reset"); [done|]. cbn [state_of snd].
    change (State_main st' (set_future _ _ _)) with (State_main st' w').
    change (State_main st (set_future _ _ _)) with (State_main st w). by rewrite Hm. }
  destruct (String.eqb name "_fallback") eqn:E2.
  { unfold __getattr__. rewrite E1, E2.
    destruct (String.eqb name "_reset"); [done|]. cbn [state_of snd].
    change (State_fallback st' (set_future _ _ _)) with (State_fallback st' w').
    change (State_fallback st (set_future _ _ _)) with (State_fallback st w).
    by rewrite Hf. }
  apply String.eqb_neq in E1, E2.
  apply getattr_outcome_ext; try assumption; cbn [state_of].
  - by rewrite Hm, Hd.
  - by rewrite Hf, Hd.
Qed.

Lemma flag_eq_deref l w w' : flag_eq w w' -> deref l w' = deref l w.
Proof. intros (Hh & _). unfold deref. by rewrite Hh. Qed.

Lemma flag_eq_live w w' :
  flag_eq w w' -> live_main w' = live_main w /\ live_fallback w' = live_fallback w.
Proof.
  intros (_ & _ & Hcm & Hcf & Him & Hif & _).
  unfold live_main, live_fallback, State_main, State_fallback.
  by rewrite Hcm, Hcf, Him, Hif.
Qed.

Lemma flag_eq_store l s w w' : flag_eq w w' -> flag_eq (store l s w) (store l s w').
Proof.
  intros (Hh & Hn & Hcm & Hcf & Him & Hif & He).
  unfold flag_eq, store; cbn. by rewrite Hh.
Qed.

Lemma flag_eq_set_value l v w w' :
  flag_eq w w' -> flag_eq (set_value l v w) (set_value l v w').
Proof.
  intros H. unfold set_value. rewrite (flag_eq_deref l _ _ H). by apply flag_eq_store.
Qed.

Lemma flag_eq_set_empty l b w w' :
  flag_eq w w' -> flag_eq (set_empty l b w) (set_empty l b w').
Proof.
  intros H. unfold set_empty. rewrite (flag_eq_deref l _ _ H). by apply flag_eq_store.
Qed.

Lemma flag_eq_set_future l b w w' :
  flag_eq w w' -> flag_eq (set_future l b w) (set_future l b w').
Proof.
  intros H. unfold set_future. rewrite (flag_eq_deref l _ _ H). by apply flag_eq_store.
Qed.

Lemma flag_eq_alloc s w w' : flag_eq w w' -> flag_eq (alloc s w).2 (alloc s w').2.
Proof.
  intros (Hh & Hn & Hcm & Hcf & Him & Hif & He).
  unfold flag_eq, alloc; cbn. by rewrite Hh, Hn.
Qed.

Lemma flag_eq_Sentinel_copy l w w' :
  flag_eq w w' -> flag_eq (Sentinel_copy l w).2 (Sentinel_copy l w').2.
Proof.
  intros H. pose proof (flag_eq_alloc Sentinel_new _ _ H) as H1.
  assert (next w' = next w) as Hn by (by destruct H as (_ & ? & _)).
  unfold Sentinel_copy.
  destruct (alloc Sentinel_new w) as [s w1] eqn:E.
  destruct (alloc Sentinel_new w') as [s' w1'] eqn:E'.
  assert (s = next w) as -> by (by inversion E).
  assert (s' = next w) as -> by (inversion E'; congruence).
  cbn [snd] in *.
  pose proof (flag_eq_set_value (next w) (value (deref l w1)) _ _ H1) as H2.
  rewrite <- (flag_eq_deref l _ _ H1) in H2 at 2.
  pose proof (flag_eq_set_empty (next w) (empty (deref l (set_value (next w)
                 (value (deref l w1)) w1))) _ _ H2) as H3.
  rewrite <- (flag_eq_deref l _ _ H2) in H3 at 2.
  pose proof (flag_eq_set_future (next w) (future (deref l (set_empty (next w)
                 (empty (deref l (set_value (next w) (value (deref l w1)) w1)))
                 (set_value (next w) (value (deref l w1)) w1)))) _ _ H3) as H4.
  rewrite <- (flag_eq_deref l _ _ H3) in H4 at 2.
  exact H4.
Qed.

(** [enter] run on two worlds that differ in the policy flag only. *)
Lemma flag_eq_Import_enter h w w' :
  flag_eq w w' -> flag_eq (Import_enter h w).1 (Import_enter h w').1.
Proof.
  intros H. destruct (flag_eq_live _ _ H) as (Hm & Hf).
  rewrite !Import_enter_eq. cbv zeta. cbn [fst]. rewrite Hm, Hf.
  do 2 apply flag_eq_set_future, flag_eq_set_empty, flag_eq_set_value.
  by do 2 apply flag_eq_Sentinel_copy.
Qed.

Lemma open_scope_raising p f w :
  open_scope p f true w = Import_enter (mkImport p f None) w.
Proof. reflexivity. Qed.

Lemma open_scope_silent p f w :
  open_scope p f false w =
  Import_enter (mkImport p f None) (set_state (State_catch (state w)) w).
Proof. reflexivity. Qed.

Lemma flag_eq_catch w : flag_eq w (set_state (State_catch (state w)) w).
Proof. unfold flag_eq. cbn. tauto. Qed.

Lemma lookup_flag_eq name w w' :
  flag_eq w w' ->
  (__getattr__ name (Some (state w')) w').2 = (__getattr__ name (Some (state w)) w).2.
Proof.
  intros H. destruct (flag_eq_live _ _ H) as (Hm & Hf).
  destruct H as (Hh & _).
  exact (getattr_outcome_flag_inert name (state w) (state w') w w' Hh Hm Hf).
Qed.

(** X11.  The [raises] argument of [Import] has no effect on what a lookup
    in the scope answers: opened from the same world with [raises=True] and
    with [raises=False], the two scopes give the same outcome for every
    name. *)
Theorem raises_argument_is_inert (p f name : string) (w : World) :
  (Import_get_entity (open_scope p f false w).2 name (open_scope p f false w).1).2 =
  (Import_get_entity (open_scope p f true w).2 name (open_scope p f true w).1).2.
Proof.
  rewrite open_scope_silent, open_scope_raising. unfold Import_get_entity.
  apply lookup_flag_eq, flag_eq_Import_enter, flag_eq_catch.
Qed.

End ResolverExtras3.

(** * Further properties of scopes *)

Section ScopeExtras.
Context {host : Host}.

(** [exit] installs copies of the two sentinels its snapshot names. *)
Lemma exit_installs_snapshot h exc w a b r :
  _old_state h = Some (mkState (Some a) (Some b) r) ->
  a < next w -> b < next w ->
  (Import_exit h exc w).2 = Ret tt /\
  deref (live_main (Import_exit h exc w).1) (Import_exit h exc w).1 = deref a w /\
  deref (live_fallback (Import_exit h exc w).1) (Import_exit h exc w).1 = deref b w.
Proof.
  intros E Ha Hb.
  assert (live_main (Import_exit h exc w).1 = next w) as Em.
  { unfold live_main. by rewrite (Import_exit_state _ _ _ _ E). }
  assert (live_fallback (Import_exit h exc w).1 = S (next w)) as Ef.
  { unfold live_fallback. by rewrite (Import_exit_state _ _ _ _ E). }
  split; [by rewrite (Import_exit_eq _ _ _ _ E)|].
  rewrite Em, Ef, !(deref_Import_exit _ _ _ _ _ E) by done.
  rewrite decide_True by done.
  rewrite decide_False by lia. by rewrite decide_True.
Qed.

(** Right after [enter] the snapshot is out of reach and holds what
    [state] reached before. *)
Lemma snapshot_after_enter h w :
  wf w ->
  wf (Import_enter h w).1 /\
  protected (next w) (Import_enter h w).1 /\
  protected (S (next w)) (Import_enter h w).1 /\
  deref (next w) (Import_enter h w).1 = deref (live_main w) w /\
  deref (S (next w)) (Import_enter h w).1 = deref (live_fallback w) w.
Proof.
  intros Hwf. pose proof Hwf as (Hr & _ & _).
  pose proof (api_step_inv _ _ Hwf (step_enter h w)) as (Hwf1 & _ & _).
  assert (live_main w < next w) by (apply Hr; unfold root; auto).
  assert (live_fallback w < next w) by (apply Hr; unfold root; auto).
  split; [exact Hwf1|].
  split. { split; [rewrite Import_enter_next; lia|]. intros Hx%Hr. lia. }
  split. { split; [rewrite Import_enter_next; lia|]. intros Hx%Hr. lia. }
  rewrite !deref_Import_enter by done.
  split; repeat case_decide; try lia; done.
Qed.

(** [enter], any use of the public surface, then [exit] on the object
    with the snapshot that [enter] stored: the values are back. *)
Lemma enter_steps_exit h h2 exc w w2 :
  wf w ->
  rtc api_step (Import_enter h w).1 w2 ->
  _old_state h2 = _old_state (Import_enter h w).2 ->
  (Import_exit h2 exc w2).2 = Ret tt /\
  deref (live_main (Import_exit h2 exc w2).1) (Import_exit h2 exc w2).1
    = deref (live_main w) w /\
  deref (live_fallback (Import_exit h2 exc w2).1) (Import_exit h2 exc w2).1
    = deref (live_fallback w) w.
Proof.
  intros Hwf Hsteps Hkept.
  destruct (snapshot_after_enter h w Hwf) as (Hwf1 & Hp & Hp' & Dn & Dn').
  pose proof (api_steps_inv _ _ Hwf1 Hsteps) as (_ & _ & Hkeep).
  destruct (Hkeep _ Hp) as ((Hlt & _) & Kn).
  destruct (Hkeep _ Hp') as ((Hlt' & _) & Kn').
  destruct (exit_installs_snapshot h2 exc w2 (next w) (S (next w)) None
              Hkept Hlt Hlt') as (Hr & Hm & Hf).
  split; [exact Hr|]. rewrite Hm, Hf, Kn, Kn', Dn, Dn'. split; reflexivity.
Qed.

(** X12.  [enter] installs exactly the handle's two names: whatever the two
    sentinels held before, a pending deferral included, they end up
    assigned, with no deferral pending.  It loads nothing, leaves the
    policy flag and [state] itself alone, and its snapshot is a pair of
    new objects holding what the two sentinels held before. *)
Theorem enter_installs_names (h : Import) (w : World) :
  wf w ->
  let w1 := (Import_enter h w).1 in
  deref (live_main w1) w1 = mkSentinel (VStr (main h)) false false /\
  deref (live_fallback w1) w1 = mkSentinel (VStr (fallback h)) false false /\
  events w1 = events w /\ state w1 = state w /\
  live_raise_exc w1 = live_raise_exc w /\
  exists old, _old_state (Import_enter h w).2 = Some old /\
    deref (State_main old w1) w1 = deref (live_main w) w /\
    deref (State_fallback old w1) w1 = deref (live_fallback w) w /\
    ¬ root (State_main old w1) w1 /\ ¬ root (State_fallback old w1) w1.
Proof.
  intros Hwf. cbv zeta.
  destruct (snapshot_after_enter h w Hwf) as (_ & (_ & Hp) & (_ & Hp') & Dn & Dn').
  pose proof Hwf as (_ & Hd & _).
  change (live_main (Import_enter h w).1) with (live_main w).
  change (live_fallback (Import_enter h w).1) with (live_fallback w).
  rewrite !deref_Import_enter by done.
  rewrite (decide_False (P := live_main w = live_fallback w)) by done.
  rewrite !decide_True by done.
  split; [done|]. split; [done|]. split; [reflexivity|]. split; [reflexivity|].
  split; [reflexivity|].
  exists (mkState (Some (next w)) (Some (S (next w))) None).
  split; [reflexivity|].
  change (State_main _ (Import_enter h w).1) with (next w).
  change (State_fallback _ (Import_enter h w).1) with (S (next w)).
  rewrite Dn, Dn'.
  split; [reflexivity|]. split; [reflexivity|]. split; [exact Hp|exact Hp'].
Qed.

(** X13.  Scopes closed in the order they were opened do not restore the
    world: after [A.enter], [B.enter], [A.exit], [B.exit] the two
    sentinels hold A's names, as they did when B was entered. *)
Theorem out_of_order_exit_leaves_outer_names (hA hB : Import)
    (excA excB : option Exn) (w : World) :
  wf w ->
  let wA := (Import_enter hA w).1 in
  let hA1 := (Import_enter hA w).2 in
  let wB := (Import_enter hB wA).1 in
  let hB1 := (Import_enter hB wA).2 in
  let w3 := (Import_exit hA1 excA wB).1 in
  let w4 := (Import_exit hB1 excB w3).1 in
  deref (live_main w4) w4 = mkSentinel (VStr (main hA)) false false /\
  deref (live_fallback w4) w4 = mkSentinel (VStr (fallback hA)) false false.
Proof.
  intros Hwf. cbv zeta.
  destruct (snapshot_after_enter hA w Hwf) as (HwfA & _).
  destruct (enter_steps_exit hB (Import_enter hB (Import_enter hA w).1).2 excB
              (Import_enter hA w).1
              (Import_exit (Import_enter hA w).2 excA
                 (Import_enter hB (Import_enter hA w).1).1).1
              HwfA (rtc_once _ _ (step_exit _ _ _)) eq_refl) as (_ & -> & ->).
  pose proof Hwf as (_ & Hd & _).
  change (live_main (Import_enter hA w).1) with (live_main w).
  change (live_fallback (Import_enter hA w).1) with (live_fallback w).
  rewrite !deref_Import_enter by exact Hwf.
  rewrite (decide_False (P := live_main w = live_fallback w)) by exact Hd.
  rewrite !decide_True by reflexivity. split; reflexivity.
Qed.

End ScopeExtras.

Section ScopeExtras2.
Context {host : Host}.

(** X14.  The [with] statement: when the body only uses the public
    surface and hands the [Import] object back with the snapshot that
    [__enter__] stored (it has not called [enter] on it again), the
    statement ends the way the body ended (same value, or the same
    exception propagating), and the two sentinels are back to what they
    held before the statement. *)
Theorem with_statement_restores_and_propagates {A : Type} (p f : string)
    (raises : bool) (body : Import -> World -> World * Import * Res A) (w : World) :
  wf w ->
  (forall h v, rtc api_step v (body h v).1.1) ->
  (forall h v, _old_state (body h v).1.2 = _old_state h) ->
  let w3 := (with_Import_st p f raises body w).1 in
  (with_Import_st p f raises body w).2
    = (body (open_scope p f raises w).2 (open_scope p f raises w).1).2 /\
  deref (live_main w3) w3 = deref (live_main w) w /\
  deref (live_fallback w3) w3 = deref (live_fallback w) w.
Proof.
  intros Hwf Hbody Hkept. cbv zeta.
  unfold with_Import_st, open_scope, Import___enter__, Import___exit__.
  pose proof (api_step_inv _ _ Hwf (step_init p f raises w)) as (Hwf0 & _).
  assert (deref (live_main (Import_init p f raises w).1) (Import_init p f raises w).1
          = deref (live_main w) w) as Em by (by destruct raises).
  assert (deref (live_fallback (Import_init p f raises w).1) (Import_init p f raises w).1
          = deref (live_fallback w) w) as Ef by (by destruct raises).
  destruct (Import_init p f raises w) as [w0 h0]. cbn [fst] in *.
  specialize (Hbody (Import_enter h0 w0).2 (Import_enter h0 w0).1).
  specialize (Hkept (Import_enter h0 w0).2 (Import_enter h0 w0).1).
  pose proof (enter_steps_exit h0) as Hround.
  destruct (Import_enter h0 w0) as [w1 h1] eqn:E1. cbn [fst snd] in *.
  destruct (body h1 w1) as [[w2 h2] r] eqn:E2. cbn [fst snd] in *.
  set (exc := match r with Ret _ => None | Raise e => Some e end).
  specialize (Hround h2 exc w0 w2 Hwf0).
  rewrite E1 in Hround. cbn [fst snd] in Hround.
  destruct (Hround Hbody Hkept) as (Hr & Hm & Hf).
  destruct (Import_exit h2 exc w2) as [w3 x]. cbn [fst snd] in *. subst x.
  cbn [fst snd]. split; [reflexivity|].
  rewrite Hm, Hf, Em, Ef. split; reflexivity.
Qed.

(** X18.  A body that calls [enter] on its own handle again overwrites the
    snapshot: [__exit__] then installs what the second [enter] saved, and
    after the [with] statement the two sentinels hold the scope's own
    names instead of what they held before it. *)
Theorem reentered_scope_keeps_its_names (p f : string) (raises : bool) (w : World) :
  wf w ->
  let body := fun (h : Import) (v : World) =>
                let '(v', h') := Import_enter h v in (v', h', Ret tt) in
  let w3 := (with_Import_st p f raises body w).1 in
  (with_Import_st p f raises body w).2 = Ret tt /\
  deref (live_main w3) w3 = mkSentinel (VStr p) false false /\
  deref (live_fallback w3) w3 = mkSentinel (VStr f) false false.
Proof.
  intros Hwf. cbv zeta.
  unfold with_Import_st, Import___enter__, Import___exit__.
  pose proof (api_step_inv _ _ Hwf (step_init p f raises w)) as (Hwf0 & _).
  assert (main (Import_init p f raises w).2 = p /\
          fallback (Import_init p f raises w).2 = f) as (Hp & Hf)
    by (by destruct raises).
  destruct (Import_init p f raises w) as [w0 h0]. cbn [fst snd] in *.
  destruct (snapshot_after_enter h0 w0 Hwf0) as (Hwf1 & _).
  pose proof (enter_steps_exit (Import_enter h0 w0).2
                (Import_enter (Import_enter h0 w0).2 (Import_enter h0 w0).1).2
                None (Import_enter h0 w0).1
                (Import_enter (Import_enter h0 w0).2 (Import_enter h0 w0).1).1
                Hwf1 (rtc_refl _ _) eq_refl) as (Hr & Hm & Hfb).
  pose proof Hwf0 as (_ & Hd0 & _).
  change (live_main (Import_enter h0 w0).1) with (live_main w0) in Hm.
  change (live_fallback (Import_enter h0 w0).1) with (live_fallback w0) in Hfb.
  rewrite deref_Import_enter in Hm by exact Hwf0.
  rewrite deref_Import_enter in Hfb by exact Hwf0.
  rewrite (decide_False (P := live_main w0 = live_fallback w0)) in Hm by exact Hd0.
  rewrite !decide_True in Hm by reflexivity.
  rewrite !decide_True in Hfb by reflexivity.
  rewrite Hp in Hm. rewrite Hf in Hfb.
  destruct (Import_enter h0 w0) as [w1 h1]. cbn [fst snd] in *.
  destruct (Import_enter h1 w1) as [w2 h2]. cbn [fst snd] in *.
  destruct (Import_exit h2 None w2) as [w3 x]. cbn [fst snd] in *. subst x.
  cbn [fst snd]. split; [reflexivity|]. split; [exact Hm|exact Hfb].
Qed.

(** X19.  The round trip on the path through [state]: from a well-formed
    world, after [__enter__], any use of the public surface that leaves
    the snapshot of the [Import] object in place, and [__exit__] on that
    object (however the body ended), the two sentinels reached through
    [state] hold what they held before [__enter__], in two new objects;
    lookups through a handle answer as they did before; and when the world
    before was the one an outer scope [hA] had just set up, the outer
    scope's two names are installed again. *)
Theorem scope_round_trip_through_state (h h2 : Import) (exc : option Exn)
    (w w2 : World) :
  wf w ->
  rtc api_step (Import___enter__ h w).1 w2 ->
  _old_state h2 = _old_state (Import___enter__ h w).2 ->
  let w3 := (Import___exit__ h2 exc w2).1 in
  (Import___exit__ h2 exc w2).2 = Ret tt /\
  deref (live_main w3) w3 = deref (live_main w) w /\
  deref (live_fallback w3) w3 = deref (live_fallback w) w /\
  (next w2 <= live_main w3 /\ next w2 <= live_fallback w3 /\
   live_main w3 ≠ live_fallback w3) /\
  (forall name, name ≠ "_main" -> name ≠ "_fallback" ->
     (Import_get_entity h2 name w3).2 = (Import_get_entity h name w).2) /\
  (forall hA w0, wf w0 -> w = (Import___enter__ hA w0).1 ->
     deref (live_main w3) w3 = mkSentinel (VStr (main hA)) false false /\
     deref (live_fallback w3) w3 = mkSentinel (VStr (fallback hA)) false false).
Proof.
  unfold Import___enter__, Import___exit__. intros Hwf Hsteps Hkept. cbv zeta.
  destruct (enter_steps_exit h h2 exc w w2 Hwf Hsteps Hkept) as (Hr & Rm & Rf).
  set (w3 := (Import_exit h2 exc w2).1) in *.
  assert (live_main w3 = next w2) as Em.
  { unfold live_main, w3. by rewrite (Import_exit_state _ _ _ _ Hkept). }
  assert (live_fallback w3 = S (next w2)) as Ef.
  { unfold live_fallback, w3. by rewrite (Import_exit_state _ _ _ _ Hkept). }
  split; [exact Hr|]. split; [exact Rm|]. split; [exact Rf|].
  split. { rewrite Em, Ef. lia. }
  split.
  - intros name H1 H2. unfold Import_get_entity.
    apply getattr_outcome_ext; [exact H1|exact H2| |]; cbn [state_of].
    + fold (live_main w3) (live_main w). rewrite Rm. reflexivity.
    + fold (live_fallback w3) (live_fallback w). rewrite Rf. reflexivity.
  - intros hA w0 Hwf0 Ew. rewrite Rm, Rf.
    assert (live_main w = live_main w0) as -> by (by rewrite Ew).
    assert (live_fallback w = live_fallback w0) as -> by (by rewrite Ew).
    rewrite Ew.
    rewrite !(deref_Import_enter _ hA w0 Hwf0).
    destruct Hwf0 as (_ & Hd0 & _).
    rewrite (decide_False (P := live_main w0 = live_fallback w0)) by exact Hd0.
    rewrite !decide_True by reflexivity. split; reflexivity.
Qed.

(** X15.  Every world the public surface can reach from a fresh process is
    well formed: the class-level sentinels and the two reached through
    [state] are allocated, and primary and fallback are never the same
    object. *)
Theorem reachable_worlds_are_well_formed (w : World) :
  rtc api_step initial_world w ->
  wf w.
Proof. intros Hs. by destruct (api_steps_inv _ _ wf_initial Hs). Qed.

(** X16.  No use of the public surface ever turns raising on: in every
    world reachable from a fresh process the policy flag, read through
    [state] or from the class, is [False]. *)
Theorem policy_flag_is_never_true (w : World) :
  rtc api_step initial_world w ->
  live_raise_exc w = false /\ cls_raise_exc w = false.
Proof.
  intros Hs.
  assert (cls_raise_exc w = false /\
          (inst_raise_exc (state w) = None \/ inst_raise_exc (state w) = Some false)) as H.
  { assert (forall a b, rtc api_step a b ->
              cls_raise_exc a = false /\
              (inst_raise_exc (state a) = None \/ inst_raise_exc (state a) = Some false) ->
              cls_raise_exc b = false /\
              (inst_raise_exc (state b) = None \/ inst_raise_exc (state b) = Some false))
      as Hinv.
    { intros a b Hab. induction Hab as [a | a a1 b Hstep Hsteps IH]; [done|].
      intros (Hc & Hi). apply IH.
      destruct (api_step_policy _ _ Hstep) as (-> & [-> | ->]); auto. }
    apply (Hinv _ _ Hs). split; [reflexivity|by left]. }
  destruct H as (Hc & [Hi | Hi]); unfold live_raise_exc, State_raise_exc;
    by rewrite Hi, ?Hc.
Qed.

(** X17.  [exit] on a handle that was never entered raises
    [AttributeError] and changes nothing. *)
Theorem exit_before_enter_raises (p f : string) (raises : bool)
    (exc : option Exn) (w w' : World) :
  Import_exit (Import_init p f raises w).2 exc w' =
  (w', Raise (Exc AttributeError "'NoneType' object has no attribute 'main'")).
Proof. apply Import_exit_unentered. by destruct raises. Qed.

(** X1.  [copy] gives a new object with the same three fields; the
    original is unchanged, and from then on assignments to one of the two
    do not show in the other. *)
Theorem copy_is_independent (self : loc) (v : SlotValue) (b : bool) (w : World) :
  self < next w ->
  let c := (Sentinel_copy self w).1 in
  let w1 := (Sentinel_copy self w).2 in
  c ≠ self /\
  deref c w1 = deref self w /\
  (forall l, l ≠ c -> deref l w1 = deref l w) /\
  deref c (set_future self b (set_empty self b (set_value self v w1))) = deref self w /\
  deref c (Sentinel_reset self w1) = deref self w /\
  deref self (set_future c b (set_empty c b (set_value c v w1))) = deref self w.
Proof.
  intros Hlt. cbv zeta. rewrite Sentinel_copy_loc.
  assert (next w ≠ self) as Hne by lia.
  split; [exact Hne|].
  rewrite deref_Sentinel_reset, !deref_assign3, !deref_Sentinel_copy.
  rewrite !(decide_True (P := next w = next w)) by reflexivity.
  rewrite !(decide_False (P := next w = self)) by exact Hne.
  rewrite !(decide_False (P := self = next w)) by (intros Heq; by apply Hne).
  split; [reflexivity|]. split.
  - intros l Hl. rewrite deref_Sentinel_copy.
    rewrite decide_False by (intros Heq; by apply Hl). reflexivity.
  - repeat split; reflexivity.
Qed.

End ScopeExtras2.

(** ** The further properties at concrete inputs *)

Lemma typing_scope_settled :
  future (deref (State_main (state_of (Some (state typing_scope))) typing_scope)
                typing_scope) = false /\
  future (deref (State_fallback (state_of (Some (state typing_scope))) typing_scope)
                typing_scope) = false.
Proof. split; vm_compute; reflexivity. Qed.

Lemma typing_scope_reachable : rtc (api_step (host := demo_host)) initial_world typing_scope.
Proof.
  exact (rtc_once _ _ (step_enter (mkImport "typing" "typing_extensions" None)
                                  initial_world)).
Qed.

Lemma copy_is_independent_witness :
  (Sentinel_copy 0 initial_world).1 ≠ 0 /\
  deref (Sentinel_copy 0 initial_world).1 (Sentinel_copy 0 initial_world).2
    = deref 0 initial_world.
Proof.
  destruct (copy_is_independent 0 (VStr "x") true initial_world ltac:(cbn; lia))
    as (H1 & H2 & _).
  exact (conj H1 H2).
Defined.

Lemma reset_command_unconfigures_witness :
  let w1 := (__getattr__ (host := demo_host) "_reset" (Some (state typing_scope))
               typing_scope).1 in
  (__getattr__ (host := demo_host) "_reset" (Some (state typing_scope)) typing_scope).2
    = Ret ENone /\
  (__getattr__ (host := demo_host) "Doc" (Some (state typing_scope)) w1).2 = Ret EFuture.
Proof.
  destruct (reset_command_unconfigures (host := demo_host) "Doc"
              (Some (state typing_scope)) typing_scope
              (not_reserved_demo "Doc" eq_refl eq_refl eq_refl))
    as (H1 & _ & _ & _ & _ & H6 & _).
  exact (conj H1 H6).
Defined.

Lemma unassigned_primary_returns_Future_witness :
  (__getattr__ (host := demo_host) "Doc" None initial_world).2 = Ret EFuture /\
  loader_calls (__getattr__ (host := demo_host) "Doc" None initial_world).1 = [].
Proof.
  apply (unassigned_primary_returns_Future (host := demo_host) "Doc" None initial_world
           (not_reserved_demo "Doc" eq_refl eq_refl eq_refl));
    vm_compute; reflexivity.
Defined.

Lemma unlisted_exception_propagates_witness :
  (__getattr__ (host := guarded_host) "loads" (Some (state relative_scope))
     relative_scope).2
    = Raise (Exc TypeError
        "the 'package' argument is required to perform a relative import for '.rel'") /\
  loader_calls (__getattr__ (host := guarded_host) "loads" (Some (state relative_scope))
                  relative_scope).1
    = loader_calls relative_scope ++ [".rel"].
Proof.
  apply (unlisted_exception_propagates (host := guarded_host) "loads"
           (Some (state relative_scope)) relative_scope ".rel"
           (Exc TypeError
              "the 'package' argument is required to perform a relative import for '.rel'")
           (not_reserved_demo "loads" eq_refl eq_refl eq_refl)).
  - split; [|split]; [vm_compute; reflexivity | discriminate | vm_compute; reflexivity].
  - reflexivity.
  - left. reflexivity.
Defined.

Lemma failed_primary_without_fallback_witness :
  (__getattr__ (host := demo_host) "Missing" None typing_only).2 = Ret ENotFound /\
  loader_calls (__getattr__ (host := demo_host) "Missing" None typing_only).1
    = loader_calls typing_only ++ ["typing"].
Proof.
  apply (failed_primary_without_fallback (host := demo_host) "Missing" None typing_only
           "typing" (not_reserved_demo "Missing" eq_refl eq_refl eq_refl)).
  - split; [|split]; [vm_compute; reflexivity | discriminate | vm_compute; reflexivity].
  - apply typing_lacks; [reflexivity | discriminate].
  - vm_compute; reflexivity.
Defined.

Lemma lookup_raises_only_host_exceptions_witness :
  raised_by_host (host := demo_host)
    (Exc ModuleNotFoundError "No module named 'not_installed'").
Proof.
  apply (lookup_raises_only_host_exceptions (host := demo_host) "Missing"
           (Some (state (open_scope "typing" "not_installed" false initial_world).1))
           (open_scope "typing" "not_installed" false initial_world).1).
  vm_compute; reflexivity.
Defined.

Lemma settled_lookup_is_read_only_witness :
  same_store typing_scope
    (__getattr__ (host := demo_host) "Doc" (Some (state typing_scope)) typing_scope).1.
Proof.
  apply (settled_lookup_is_read_only (host := demo_host) "Doc"
           (Some (state typing_scope)) typing_scope
           (not_reserved_demo "Doc" eq_refl eq_refl eq_refl));
    apply typing_scope_settled.
Defined.

Lemma lookup_touches_only_its_sentinels_witness :
  deref 2 (__getattr__ (host := demo_host) "_main" (Some (state typing_scope))
             typing_scope).1 = deref 2 typing_scope.
Proof.
  destruct (lookup_touches_only_its_sentinels (host := demo_host) "_main"
              (Some (state typing_scope)) typing_scope) as (_ & _ & _ & _ & _ & H).
  apply H; vm_compute; lia.
Defined.

Lemma absorbed_failures_return_NotFound_witness :
  (__getattr__ (host := demo_host) "Missing" (Some (state typing_scope)) typing_scope).2
    = Ret ENotFound /\
  loader_calls (__getattr__ (host := demo_host) "Missing" (Some (state typing_scope))
                  typing_scope).1
    = loader_calls typing_scope ++ ["typing"; "typing_extensions"].
Proof.
  apply (absorbed_failures_return_NotFound (host := demo_host) "Missing"
           (Some (state typing_scope)) typing_scope "typing" "typing_extensions"
           (not_reserved_demo "Missing" eq_refl eq_refl eq_refl)
           typing_scope_primary).
  - apply typing_lacks; [reflexivity | discriminate].
  - exact typing_scope_fallback.
  - vm_compute; reflexivity.
  - right. split; [discriminate|].
    exists (TModule "typing_extensions"),
      (Exc AttributeError "module 'typing_extensions' has no attribute 'Missing'").
    repeat split; reflexivity.
Defined.

Lemma deferred_fallback_assignment_witness :
  let w1 := (__getattr__ (host := demo_host) "_fallback" (Some (state typing_scope))
               typing_scope).1 in
  (__getattr__ (host := demo_host) "json" (Some (state typing_scope)) w1).2
    = Ret (EObj (host := demo_host) (TModule "json")).
Proof.
  destruct (deferred_fallback_assignment (host := demo_host) "json"
              (Some (state typing_scope)) typing_scope
              (not_reserved_demo "json" eq_refl eq_refl eq_refl))
    as (_ & _ & _ & H).
  cbv zeta.
  apply (H "typing" (TModule "json")).
  - vm_compute; lia.
  - exact typing_scope_primary.
  - apply typing_lacks; [reflexivity | discriminate].
  - reflexivity.
Defined.

Lemma enter_installs_names_witness :
  deref (live_main typing_scope) typing_scope = mkSentinel (VStr "typing") false false /\
  deref (live_fallback typing_scope) typing_scope
    = mkSentinel (VStr "typing_extensions") false false.
Proof.
  destruct (enter_installs_names (host := demo_host)
              (mkImport "typing" "typing_extensions" None)
              initial_world wf_initial) as (H1 & H2 & _).
  exact (conj H1 H2).
Defined.

Lemma out_of_order_exit_leaves_outer_names_witness :
  let hA := mkImport "typing" "typing_extensions" None in
  let hB := mkImport "json" "datetime" None in
  let wA := (Import_enter hA initial_world).1 in
  let wB := (Import_enter hB wA).1 in
  let w3 := (Import_exit (Import_enter hA initial_world).2 None wB).1 in
  let w4 := (Import_exit (Import_enter hB wA).2 None w3).1 in
  deref (live_main w4) w4 = mkSentinel (VStr "typing") false false /\
  deref (live_fallback w4) w4 = mkSentinel (VStr "typing_extensions") false false.
Proof.
  exact (out_of_order_exit_leaves_outer_names (host := demo_host)
           (mkImport "typing" "typing_extensions" None) (mkImport "json" "datetime" None)
           None None initial_world wf_initial).
Defined.

Lemma with_statement_restores_and_propagates_witness :
  let body := fun h v =>
                ((Import_get_entity (host := demo_host) h "Doc" v).1, h,
                 (Import_get_entity (host := demo_host) h "Doc" v).2) in
  let w3 := (with_Import_st "typing" "typing_extensions" true body initial_world).1 in
  (with_Import_st "typing" "typing_extensions" true body initial_world).2
    = (body (open_scope "typing" "typing_extensions" true initial_world).2
            (open_scope "typing" "typing_extensions" true initial_world).1).2 /\
  deref (live_main w3) w3 = deref (live_main initial_world) initial_world /\
  deref (live_fallback w3) w3 = deref (live_fallback initial_world) initial_world.
Proof.
  exact (with_statement_restores_and_propagates (host := demo_host)
           "typing" "typing_extensions" true
           (fun h v =>
              ((Import_get_entity (host := demo_host) h "Doc" v).1, h,
               (Import_get_entity (host := demo_host) h "Doc" v).2))
           initial_world wf_initial
           (fun h v => rtc_once _ _ (step_handle_lookup h "Doc" v))
           (fun h v => eq_refl)).
Defined.

Lemma reentered_scope_keeps_its_names_witness :
  let body := fun (h : Import) (v : World) =>
                let '(v', h') := Import_enter h v in (v', h', Ret tt) in
  let w3 := (with_Import_st "typing" "typing_extensions" true body initial_world).1 in
  deref (live_main w3) w3 = mkSentinel (VStr "typing") false false /\
  deref (live_fallback w3) w3 = mkSentinel (VStr "typing_extensions") false false.
Proof.
  destruct (reentered_scope_keeps_its_names (host := demo_host)
              "typing" "typing_extensions" true initial_world wf_initial)
    as (_ & H1 & H2).
  exact (conj H1 H2).
Defined.

(** A scope opened in a fresh process, one lookup in its body, then
    [__exit__]: [state] reaches two unassigned sentinels again, and a
    lookup through the handle returns the [_Future] marker as it did
    before. *)
Lemma scope_round_trip_through_state_witness :
  let h := mkImport "typing" "typing_extensions" None in
  let w1 := (Import___enter__ h initial_world).1 in
  let h1 := (Import___enter__ h initial_world).2 in
  let w2 := (Import_get_entity (host := demo_host) h1 "Doc" w1).1 in
  let w3 := (Import___exit__ h1 None w2).1 in
  deref (live_main w3) w3 = Sentinel_new /\
  deref (live_fallback w3) w3 = Sentinel_new /\
  (Import_get_entity (host := demo_host) h1 "Doc" w3).2
  = (Import_get_entity (host := demo_host) h "Doc" initial_world).2.
Proof.
  cbv zeta.
  destruct (scope_round_trip_through_state (host := demo_host)
              (mkImport "typing" "typing_extensions" None)
              (Import___enter__ (mkImport "typing" "typing_extensions" None)
                                initial_world).2
              None initial_world
              (Import_get_entity (host := demo_host)
                 (Import___enter__ (mkImport "typing" "typing_extensions" None)
                                   initial_world).2 "Doc"
                 (Import___enter__ (mkImport "typing" "typing_extensions" None)
                                   initial_world).1).1
              wf_initial
              (rtc_once _ _ (step_handle_lookup _ "Doc" _))
              eq_refl)
    as (_ & Hm & Hf & _ & Hlook & _).
  split; [exact Hm|]. split; [exact Hf|].
  apply Hlook; discriminate.
Defined.

Lemma reachable_worlds_are_well_formed_witness : wf typing_scope.
Proof.
  exact (reachable_worlds_are_well_formed (host := demo_host) typing_scope
           typing_scope_reachable).
Defined.

Lemma policy_flag_is_never_true_witness :
  live_raise_exc typing_scope = false /\ cls_raise_exc typing_scope = false.
Proof.
  exact (policy_flag_is_never_true (host := demo_host) typing_scope
           typing_scope_reachable).
Defined.
